(** * Csv-QA: the code validator, the sandboxed executor, the result
      formatter and the retry loop of the question-answering pipeline.

    The development embeds [src/executor.py] ([strip_imports],
    [validate_code], [execute_code], [format_result]), the methods [load],
    [ask] and [ask_batch] of [src/pipeline.py], and the cleaning of the
    model's response in [src/code_generator.py].

    - Text is a [string] whose characters are the code points 0..255.
    - Scopes (Python dicts keyed by names) are [gmap string value].
    - A raised exception is a value of type [exn] on the left of a sum.
    - What the source calls into and does not define is an interface: the
      Python runtime ([Runtime]: [ast.parse], [exec], [eval]), the text
      renderers of pandas ([Rendering]) and the collaborators of the
      pipeline ([Services]).  General statements hold for every instance;
      sample runs use the instances [MiniPy.runtime], [PlainText.rendering]
      and [Scripted.services].
    - Each interface says what it takes for granted: the parser fails by
      [SyntaxError] only, the renderers return.

    The definitions come first, the properties after them. *)

From Stdlib Require Import ZArith String Ascii List Bool Lia.
From Stdlib Require Import DecimalString.
From Stdlib Require Floats.SpecFloat.
From stdpp Require Import base strings gmap list.
Import ListNotations.

Set Warnings "-register-all".

Local Open Scope string_scope.
Local Open Scope Z_scope.

(** ** Python text primitives used by the source *)

Module Text.

Definition ord (c : ascii) : N := N_of_ascii c.

(** The newline character, the separator of [code.split] and [join]. *)
Definition NL : ascii := "010"%char.

(** [str.isspace] on one character (code points below 256). *)
Definition is_space (c : ascii) : bool :=
  let n := ord c in
  ((9 <=? n) && (n <=? 13) || (28 <=? n) && (n <=? 32) ||
   (n =? 133) || (n =? 160))%N.

(** [str.lower] on one character (code points below 256). *)
Definition lower_char (c : ascii) : ascii :=
  let n := ord c in
  if ((65 <=? n) && (n <=? 90) ||
      (192 <=? n) && (n <=? 222) && negb (n =? 215))%N
  then ascii_of_N (n + 32) else c.

(** [s.lower()] *)
Fixpoint lower (s : string) : string :=
  match s with
  | EmptyString => EmptyString
  | String c s' => String (lower_char c) (lower s')
  end.

(** [s.startswith(p)] *)
Fixpoint startswith (p s : string) : bool :=
  match p, s with
  | EmptyString, _ => true
  | String a p', String b s' => Ascii.eqb a b && startswith p' s'
  | String _ _, EmptyString => false
  end.

(** [sub in s] on strings *)
Fixpoint contains (sub s : string) : bool :=
  startswith sub s ||
  match s with
  | EmptyString => false
  | String _ s' => contains sub s'
  end.

Fixpoint lstrip (s : string) : string :=
  match s with
  | EmptyString => EmptyString
  | String c s' => if is_space c then lstrip s' else s
  end.

Fixpoint rstrip (s : string) : string :=
  match s with
  | EmptyString => EmptyString
  | String c s' =>
      match rstrip s' with
      | EmptyString => if is_space c then EmptyString else String c EmptyString
      | r => String c r
      end
  end.

(** [s.strip()] *)
Definition strip (s : string) : string := rstrip (lstrip s).

(** [s.split(sep)] for a one-character separator: never the empty list. *)
Fixpoint split (s : string) (sep : ascii) : list string :=
  match s with
  | EmptyString => [EmptyString]
  | String c s' =>
      if Ascii.eqb c sep then EmptyString :: split s' sep
      else match split s' sep with
           | h :: t => String c h :: t
           | [] => [String c EmptyString]
           end
  end.

(** [sep.join(parts)] *)
Fixpoint join (sep : string) (parts : list string) : string :=
  match parts with
  | [] => EmptyString
  | [p] => p
  | p :: rest => p +:+ sep +:+ join sep rest
  end.

(** [str(n)] for a Python integer. *)
Definition str_int (z : Z) : string := NilZero.string_of_int (Z.to_int z).

End Text.
Import Text.

(** ** src/executor.py: constants *)

Definition BLOCKED_PATTERNS : list string :=
  [ "__import__"; "exec("; "eval("; "open("; "os."; "sys."; "subprocess";
    "file("; "input("; "__builtins__"; "__class__"; "__bases__";
    "__subclasses__"; "getattr"; "setattr"; "delattr"; "globals"; "locals";
    "compile" ].

Definition SAFE_IMPORTS : list string :=
  [ "datetime"; "timedelta"; "pd"; "np"; "pandas"; "numpy" ].

(** ** strip_imports *)

(** The body of the [for line in lines] loop: [filtered_lines] after one
    more line. *)
Definition strip_imports_step (filtered_lines : list string) (line : string)
  : list string :=
  let stripped := strip line in
  if startswith "import " stripped || startswith "from " stripped then
    let is_safe := existsb (fun safe => contains safe stripped) SAFE_IMPORTS in
    if is_safe then filtered_lines
    else (filtered_lines ++ [line])%list
  else (filtered_lines ++ [line])%list.

Definition strip_imports (code : string) : string :=
  let lines := split code NL in
  let filtered_lines := fold_left strip_imports_step lines [] in
  join (String NL EmptyString) filtered_lines.

(** Whether the loop of [strip_imports] keeps a line. *)
Definition kept (line : string) : bool :=
  let stripped := strip line in
  negb ((startswith "import " stripped || startswith "from " stripped) &&
        existsb (fun safe => contains safe stripped) SAFE_IMPORTS).


(** ** Values, exceptions and scopes *)

(** A raised Python exception: [type(e).__name__] and [str(e)]. *)
Record exn : Type := Raise { exn_type : string; exn_msg : string }.

Definition pyfloat : Type := SpecFloat.spec_float.

(** A cell of a table: the typed column values of the data model. *)
Inductive cell : Type :=
| CellStr (s : string)
| CellInt (z : Z)
| CellFloat (f : pyfloat)
| CellBool (b : bool)
| CellDate (epoch : Z).

(** A [pandas.DataFrame]: column names and the rows in order. *)
Record DataFrame : Type := { df_columns : list string; df_rows : list (list cell) }.

(** A [pandas.Series]: the (label, value) items in order. *)
Record Series : Type := { sr_items : list (cell * cell) }.

(** The dynamically typed values an execution can produce.  [VObject] is a
    handle on an object the model does not look into (a module, a class, a
    builtin function, a timestamp), with the name of its type and a label. *)
Inductive value : Type :=
| VNone
| VBool (b : bool)
| VInt (z : Z)
| VFloat (f : pyfloat)
| VStr (s : string)
| VList (elts : list value)
| VTuple (elts : list value)
| VDataFrame (df : DataFrame)
| VSeries (sr : Series)
| VObject (type_name name : string).

Abbreviation scope := (gmap string value).

(** [d.get(key)]: the value, or [None] when the key is absent. *)
Definition dict_get (d : scope) (key : string) : value := default VNone (d !! key).

(** [d.update(other)]: the entries of [other] win. *)
Definition dict_update (d other : scope) : scope := other ∪ d.

Definition ambiguous_truth (cls : string) : exn :=
  Raise "ValueError"
    ("The truth value of a " +:+ cls +:+
     " is ambiguous. Use a.empty, a.bool(), a.item(), a.any() or a.all().").

(** [bool(v)]: pandas containers refuse to be tested for truth. *)
Definition truth (v : value) : exn + bool :=
  match v with
  | VNone => inr false
  | VBool b => inr b
  | VInt z => inr (negb (z =? 0))
  | VFloat f => inr (match f with SpecFloat.S754_zero _ => false | _ => true end)
  | VStr s => inr (negb (String.eqb s ""))
  | VList elts | VTuple elts => inr (match elts with [] => false | _ => true end)
  | VDataFrame _ => inl (ambiguous_truth "DataFrame")
  | VSeries _ => inl (ambiguous_truth "Series")
  | VObject _ _ => inr true
  end.

(** [a or b], both operands already evaluated. *)
Definition py_or (a b : value) : exn + value :=
  match truth a with
  | inl e => inl e
  | inr true => inr a
  | inr false => inr b
  end.

(** ** The syntax trees that [ast.parse] returns *)

Inductive constant : Type :=
| KNone
| KBool (b : bool)
| KInt (z : Z)
| KFloat (f : pyfloat)
| KStr (s : string).

(** Expressions.  The nodes that can stand as the target of an assignment
    are all there: [ast.Name], [ast.Tuple] and [ast.List] (unpacking),
    [ast.Attribute] ([obj.attr = ...]) and [ast.Subscript]
    ([obj[key] = ...]). *)
Inductive expr : Type :=
| Constant (k : constant)
| Name (id : string)
| Tuple (elts : list expr)
| List (elts : list expr)
| Attribute (value : expr) (attr : string)
| Subscript (value : expr) (slice : expr).

(** Statements: the two classes that [execute_code] tests the last
    statement for, [ast.Assign] and [ast.Expr], and two of the classes it
    treats alike in its last branch. *)
Inductive stmt : Type :=
| Assign (targets : list expr) (value : expr)
| Expr (value : expr)
| Pass
| Import (name : string).

(** ** The Python runtime the executor calls into

    [ast_parse] is [ast.parse]; its failure is a [SyntaxError], given by
    its message.  (The parser of CPython can also raise other exceptions, a
    [ValueError] on a null byte in some versions, a [RecursionError] or a
    [MemoryError] on very deep or very large input; [validate_code] does
    not catch them.  Such input is outside this interface: what is stated
    below about code holds for code on which the parser returns or raises
    [SyntaxError].)  [exec] runs a statement sequence with a globals and a
    locals dict and returns both dicts as the run leaves them; [eval]
    evaluates one expression.  [exec(code, ...)] on the text that
    [ast.parse] has just parsed runs the parsed statements, and so does
    [exec]/[eval] on the [ast.unparse] of some of them. *)
Class Runtime : Type := {
  ast_parse : string -> string + list stmt;
  exec : list stmt -> scope -> scope -> exn + (scope * scope);
  eval : expr -> scope -> scope -> exn + value;
}.

(** ** Effects: a state and exception monad

    [M S A] is a computation that reads and writes a state [S] and either
    raises or returns an [A].  The executor runs in [M (list call)], the
    log of the calls it makes to the interpreter. *)

Definition M (S A : Type) : Type := S -> (exn + A) * S.

#[global] Instance M_ret {S} : MRet (M S) := fun A x st => (inr x, st).
#[global] Instance M_bind {S} : MBind (M S) := fun A B f c st =>
  match c st with
  | (inl e, st') => (inl e, st')
  | (inr x, st') => f x st'
  end.

(** [try: c] with the exception, if any, handed to the [except] clause. *)
Definition attempt {S A} (c : M S A) : M S (exn + A) := fun st =>
  match c st with
  | (r, st') => (inr r, st')
  end.

(** [try: c except Exception as e: h e] *)
Definition try_except {S A} (c : M S A) (h : exn -> M S A) : M S A :=
  r ← attempt c; match r with inl e => h e | inr x => mret x end.

(** A pure computation that may raise. *)
Definition lift {S A} (r : exn + A) : M S A := fun st => (r, st).

Inductive call : Type :=
| CallExec (body : list stmt)
| CallEval (e : expr).

Section Executor.
Context `{RT : Runtime}.

Definition do_exec (body : list stmt) (g l : scope) : M (list call) (scope * scope) :=
  fun log => (exec body g l, (log ++ [CallExec body])%list).

Definition do_eval (e : expr) (g l : scope) : M (list call) value :=
  fun log => (eval e g l, (log ++ [CallEval e])%list).

(** *** validate_code *)
Definition validate_code (code : string) : bool * option string :=
  let code_lower := lower code in
  match find (fun pattern => contains (lower pattern) code_lower) BLOCKED_PATTERNS with
  | Some pattern => (false, Some ("Unsafe pattern detected: " +:+ pattern))
  | None =>
      match ast_parse code with
      | inl e => (false, Some ("Syntax error: " +:+ e))
      | inr _ => (true, None)
      end
  end.

(** The globals every run starts from, before the tables are added. *)
Definition base_globals : scope :=
  list_to_map
    [ ("__builtins__", VObject "dict" "SAFE_BUILTINS");
      ("pd", VObject "module" "pandas");
      ("np", VObject "module" "numpy");
      ("datetime", VObject "type" "datetime");
      ("timedelta", VObject "type" "timedelta") ].

(** *** execute_code *)
Definition execute_code (code : string) (dataframes : gmap string DataFrame)
  : M (list call) (value * option string) :=
  let code := strip_imports code in
  let '(is_valid, error) := validate_code code in
  if negb is_valid then mret (VNone, error) else
  let exec_globals := dict_update base_globals (VDataFrame <$> dataframes) in
  let exec_locals : scope := ∅ in
  try_except
    (match ast_parse code with
     | inl msg => lift (inl (Raise "SyntaxError" msg))
     | inr body =>
         match last body with
         | None => mret (VNone, Some "Empty code")
         | Some (Assign targets _) =>
             '(exec_globals, exec_locals) ← do_exec body exec_globals exec_locals;
             let exec_globals := dict_update exec_globals exec_locals in
             match targets with
             | Name var_name :: _ =>
                 result ← lift (py_or (dict_get exec_locals var_name)
                                      (dict_get exec_globals var_name));
                 mret (result, None)
             | _ => mret (VNone, None)
             end
         | Some (Expr value) =>
             '(exec_globals, exec_locals) ←
               (if (1 <? length body)%nat then
                  '(g, l) ← do_exec (removelast body) exec_globals exec_locals;
                  mret (dict_update g l, l)
                else mret (exec_globals, exec_locals));
             result ← do_eval value exec_globals exec_locals;
             mret (result, None)
         | Some _ =>
             _ ← do_exec body exec_globals exec_locals;
             mret (VNone, None)
         end
     end)
    (fun e => mret (VNone, Some (exn_type e +:+ ": " +:+ exn_msg e))).

End Executor.

(** The globals of a run: the fixed handles, then the tables. *)
Definition initial_globals (dfs : gmap string DataFrame) : scope :=
  dict_update base_globals (VDataFrame <$> dfs).

(** [token] stands somewhere in [code], in whatever casing:
    a piece of [code] lowercases to the lowercased token. *)
Definition occurs_ignoring_case (token code : string) : Prop :=
  exists pre mid post, code = pre +:+ mid +:+ post /\ lower mid = lower token.

(** ** Floating-point scalars, as [format_result] inspects them *)

Module PyFloat.
Import SpecFloat.

(** [int(f)]: truncation toward zero; not defined on NaN and infinities. *)
Definition to_int (f : pyfloat) : exn + Z :=
  match f with
  | S754_zero _ => inr 0
  | S754_infinity _ =>
      inl (Raise "OverflowError" "cannot convert float infinity to integer")
  | S754_nan => inl (Raise "ValueError" "cannot convert float NaN to integer")
  | S754_finite s m e =>
      let magnitude := if 0 <=? e then Z.pos m * 2 ^ e else Z.pos m / 2 ^ (- e) in
      inr (if s then - magnitude else magnitude)
  end.

(** [f == z] for a float and an integer: exact comparison of the values. *)
Definition eq_int (f : pyfloat) (z : Z) : bool :=
  match f with
  | S754_zero _ => z =? 0
  | S754_infinity _ | S754_nan => false
  | S754_finite s m e =>
      let signed := if s then Z.neg m else Z.pos m in
      if 0 <=? e then z =? signed * 2 ^ e else z * 2 ^ (- e) =? signed
  end.

(** The nearest integer to [num / den], ties to the even one. *)
Definition round_half_even (num den : Z) : Z :=
  let q := num / den in
  let r := num mod den in
  match 2 * r ?= den with
  | Lt => q
  | Gt => q + 1
  | Eq => if Z.even q then q else q + 1
  end.

Definition two_digits (d : Z) : string :=
  if d <? 10 then "0" +:+ str_int d else str_int d.

(** [f"{f:.2f}"] *)
Definition format_2f (f : pyfloat) : string :=
  match f with
  | S754_nan => "nan"
  | S754_infinity s => if s then "-inf" else "inf"
  | S754_zero s => if s then "-0.00" else "0.00"
  | S754_finite s m e =>
      let hundredths :=
        if 0 <=? e then Z.pos m * 2 ^ e * 100
        else round_half_even (Z.pos m * 100) (2 ^ (- e)) in
      (if s then "-" else "") +:+ str_int (hundredths / 100) +:+ "." +:+
      two_digits (hundredths mod 100)
  end.

End PyFloat.

(** ** format_result *)

(** The text renderers of pandas and of the interpreter that the formatter
    calls: [DataFrame.to_string(index=...)], [Series.to_string()] and
    [str(v)].  They are taken to return.  ([str] can raise: CPython refuses
    to convert an integer of more than 4300 digits; what is stated below
    about the text that [format_result] returns is about values that the
    renderers render.) *)
Class Rendering : Type := {
  df_to_string : bool -> DataFrame -> string;
  sr_to_string : Series -> string;
  py_str : value -> string;
}.

(** [rows[:n]], the slice behind [head(n)]: the first [n] entries, or all
    but the last [-n] when [n] is negative. *)
Definition head_rows {A} (n : Z) (rows : list A) : list A :=
  if 0 <=? n then take (Z.to_nat n) rows
  else take (length rows - Z.to_nat (- n)) rows.

Definition df_len (df : DataFrame) : Z := Z.of_nat (length (df_rows df)).
Definition df_head (n : Z) (df : DataFrame) : DataFrame :=
  {| df_columns := df_columns df; df_rows := head_rows n (df_rows df) |}.

Definition sr_len (sr : Series) : Z := Z.of_nat (length (sr_items sr)).
Definition sr_head (n : Z) (sr : Series) : Series :=
  {| sr_items := head_rows n (sr_items sr) |}.

Definition nl : string := String NL EmptyString.

Section Formatter.
Context `{RD : Rendering}.

Definition format_dataframe (result : DataFrame) (max_rows : Z) : string :=
  if df_len result >? max_rows then
    let summary := "DataFrame with " +:+ str_int (df_len result) +:+
                   " rows (showing first " +:+ str_int max_rows +:+ "):" +:+ nl in
    summary +:+ df_to_string false (df_head max_rows result)
  else "DataFrame with " +:+ str_int (df_len result) +:+ " rows:" +:+ nl +:+
       df_to_string false result.

Definition format_series (result : Series) (max_rows : Z) : string :=
  if sr_len result >? max_rows then
    let summary := "Series with " +:+ str_int (sr_len result) +:+
                   " items (showing first " +:+ str_int max_rows +:+ "):" +:+ nl in
    summary +:+ sr_to_string (sr_head max_rows result)
  else "Series with " +:+ str_int (sr_len result) +:+ " items:" +:+ nl +:+
       sr_to_string result.

Definition format_float (result : pyfloat) : exn + string :=
  match PyFloat.to_int result with
  | inl e => inl e
  | inr i =>
      if PyFloat.eq_int result i then inr (str_int i)
      else inr (PyFloat.format_2f result)
  end.

(** [isinstance(v, (pd.DataFrame, pd.Series))] *)
Definition is_pandas (v : value) : bool :=
  match v with VDataFrame _ | VSeries _ => true | _ => false end.

Fixpoint format_result (result : value) (max_rows : Z) {struct result}
  : exn + string :=
  let fix format_each (rs : list value) : exn + list string :=
    match rs with
    | [] => inr []
    | r :: rs' =>
        match format_result r max_rows with
        | inl e => inl e
        | inr t =>
            match format_each rs' with
            | inl e => inl e
            | inr ts => inr (t :: ts)
            end
        end
    end in
  match result with
  | VNone => inr "No result"
  | VDataFrame df => inr (format_dataframe df max_rows)
  | VSeries sr => inr (format_series sr max_rows)
  | VList ((first :: _) as elts) | VTuple ((first :: _) as elts) =>
      if is_pandas first then
        match format_each elts with
        | inl e => inl e
        | inr ts => inr (join (nl +:+ nl) ts)
        end
      else inr (py_str result)
  | VFloat f => format_float f
  | _ => inr (py_str result)
  end.

End Formatter.

(** *** The truncation law and the values the formatter returns on *)

Fixpoint has_char (c : ascii) (s : string) : bool :=
  match s with
  | EmptyString => false
  | String d s' => Ascii.eqb c d || has_char c s'
  end.

Section FormatterLaws.
Context `{RD : Rendering}.

(** The law as the specification states it, for a table of [n] rows: the
    truncated body holds [max_rows] rows, the first ones of the table. *)
Definition table_truncation_law (df : DataFrame) (max_rows : Z) : Prop :=
  let n := df_len df in
  (n > max_rows ->
   exists body : DataFrame,
     df_len body = max_rows /\
     (exists rest, df_rows df = (df_rows body ++ rest)%list) /\
     format_result (VDataFrame df) max_rows
     = inr ("DataFrame with " +:+ str_int n +:+ " rows (showing first " +:+
            str_int max_rows +:+ "):" +:+ nl +:+ df_to_string false body)) /\
  (n <= max_rows ->
   exists header : string,
     contains "showing first" header = false /\
     header = "DataFrame with " +:+ str_int n +:+ " rows:" +:+ nl /\
     format_result (VDataFrame df) max_rows
     = inr (header +:+ df_to_string false df)).

(** The same for a labeled sequence of [n] items. *)
Definition series_truncation_law (sr : Series) (max_rows : Z) : Prop :=
  let n := sr_len sr in
  (n > max_rows ->
   exists body : Series,
     sr_len body = max_rows /\
     (exists rest, sr_items sr = (sr_items body ++ rest)%list) /\
     format_result (VSeries sr) max_rows
     = inr ("Series with " +:+ str_int n +:+ " items (showing first " +:+
            str_int max_rows +:+ "):" +:+ nl +:+ sr_to_string body)) /\
  (n <= max_rows ->
   exists header : string,
     contains "showing first" header = false /\
     header = "Series with " +:+ str_int n +:+ " items:" +:+ nl /\
     format_result (VSeries sr) max_rows
     = inr (header +:+ sr_to_string sr)).

(** The formatter of a sequence, element by element. *)
Definition format_each (max_rows : Z) : list value -> exn + list string :=
  fix each (rs : list value) : exn + list string :=
    match rs with
    | [] => inr []
    | r :: rs' =>
        match format_result r max_rows with
        | inl e => inl e
        | inr t =>
            match each rs' with
            | inl e => inl e
            | inr ts => inr (t :: ts)
            end
        end
    end.

End FormatterLaws.

Definition is_finite (f : pyfloat) : bool :=
  match f with
  | SpecFloat.S754_zero _ | SpecFloat.S754_finite _ _ _ => true
  | SpecFloat.S754_infinity _ | SpecFloat.S754_nan => false
  end.

(** A value without NaN or infinity at the places where the formatter
    takes the float branch: the value itself, or an element of a sequence
    of tables that it formats one by one. *)
Fixpoint finite_where_formatted (v : value) : bool :=
  match v with
  | VFloat f => is_finite f
  | VList elts | VTuple elts =>
      match elts with
      | first :: _ =>
          match first with
          | VDataFrame _ | VSeries _ => forallb finite_where_formatted elts
          | _ => true
          end
      | [] => true
      end
  | _ => true
  end.

(** ** src/pipeline.py *)

Record PipelineResult : Type := {
  question : string;
  answer : string;
  generated_code : option string;
  raw_result : value;
  formatted_result : option string;
  success : bool;
  error : option string;
  stage1_prompt : option string;
  stage2_prompt : option string;
}.

(** The fields of a [RAGPipeline] object that [ask] reads. *)
Record RAGPipeline : Type := {
  data_dir : string;
  max_retries : Z;
  dataframes : gmap string DataFrame;
}.

(** The external collaborators of the pipeline: the table loader, the
    constructor of the model client (it raises when the API key is not
    set), the two prompt builders and the three language-model calls.  A
    call to a model, to the loader or to the constructor reads and changes
    the outside [World] and may raise. *)
Class Services : Type := {
  World : Type;
  load_data : string -> World -> (exn + gmap string DataFrame) * World;
  get_client : World -> (exn + unit) * World;
  build_code_generation_prompt : string -> gmap string DataFrame -> string;
  generate_pandas_code :
    string -> gmap string DataFrame -> World -> (exn + string) * World;
  generate_code_with_error_feedback :
    string -> gmap string DataFrame -> string -> string ->
    World -> (exn + string) * World;
  generate_error_response : string -> string -> World -> (exn + string) * World;
  build_answer_prompt : string -> string -> string;
  generate_answer : string -> string -> string -> World -> (exn + string) * World;
}.

(** What one run of [ask] did, in order: every call to [execute_code] with
    the code, the outcome and the interpreter calls it made, and every call
    to a language model with what it gave back. *)
Inductive event : Type :=
| Executed (code : string) (outcome : value * option string) (calls : list call)
| Generated (r : exn + string)
| Regenerated (r : exn + string)
| Explained (r : exn + string)
| Synthesized (r : exn + string).

Section Pipeline.
Context `{RT : Runtime} `{RD : Rendering} `{SV : Services}.

Abbreviation P := (M (World * list event)).

(** A call to a collaborator, recorded in the trace. *)
Definition external (mk : exn + string -> event)
    (f : World -> (exn + string) * World) : P string :=
  fun '(w, tr) => let '(r, w') := f w in (r, (w', (tr ++ [mk r])%list)).

(** A call to [execute_code], recorded in the trace.  Each call starts
    with an interpreter log of its own. *)
Definition run_execute_code (code : string) (dfs : gmap string DataFrame)
  : P (value * option string) :=
  fun '(w, tr) =>
    match execute_code code dfs [] with
    | (inl e, calls) => (inl e, (w, tr))
    | (inr outcome, calls) =>
        (inr outcome, (w, (tr ++ [Executed code outcome calls])%list))
    end.

(** [self.load()], reached when the pipeline holds no tables yet: the
    tables are loaded, then the client is made.  An exception of either
    call leaves [load], and [ask], at once. *)
Definition load (self : RAGPipeline) : P RAGPipeline :=
  fun '(w, tr) =>
    match load_data (data_dir self) w with
    | (inl e, w') => (inl e, (w', tr))
    | (inr dfs, w') =>
        match get_client w' with
        | (inl e, w'') => (inl e, (w'', tr))
        | (inr _, w'') =>
            (inr {| data_dir := data_dir self; max_retries := max_retries self;
                    dataframes := dfs |}, (w'', tr))
        end
    end.

(** [range(n)] *)
Definition range (n : Z) : list Z := map Z.of_nat (seq 0 (Z.to_nat n)).

(** The [for attempt in range(self.max_retries + 1)] loop over the
    attempts still to run, from the current [code], [result] and [error]
    to those the loop ends with. *)
Fixpoint retry_loop (self : RAGPipeline) (question : string)
    (attempts : list Z) (code : string) (result : value)
    (error : option string) : P (string * value * option string) :=
  match attempts with
  | [] => mret (code, result, error)
  | attempt_no :: rest =>
      '(result, error) ← run_execute_code code (dataframes self);
      match error with
      | None => mret (code, result, error)
      | Some err =>
          if attempt_no <? max_retries self then
            r ← attempt (external Regenerated
                   (generate_code_with_error_feedback question
                      (dataframes self) code err));
            match r with
            | inr code => retry_loop self question rest code result error
            | inl e =>
                mret (code, result, Some ("Code fix failed: " +:+ exn_msg e))
            end
          else retry_loop self question rest code result error
      end
  end.

(** The stages of [ask] once the pipeline holds its tables. *)
Definition ask_loaded (self : RAGPipeline) (question : string) : P PipelineResult :=
  let stage1_prompt := build_code_generation_prompt question (dataframes self) in
  r ← attempt (external Generated
         (generate_pandas_code question (dataframes self)));
  match r with
  | inl e =>
      let error_msg := "Code generation failed: " +:+ exn_msg e in
      mret {| question := question;
              answer := "Sorry, I couldn't generate code. Error: " +:+ exn_msg e;
              generated_code := None; raw_result := VNone;
              formatted_result := None;
              success := false; error := Some error_msg;
              stage1_prompt := Some stage1_prompt; stage2_prompt := None |}
  | inr code =>
      '(code, result, error) ←
        retry_loop self question (range (max_retries self + 1)) code VNone None;
      match error with
      | Some err =>
          answer ← try_except
                     (external Explained (generate_error_response question err))
                     (fun _ => mret ("Sorry, I couldn't answer your question: " +:+ err));
          mret {| question := question; answer := answer;
                  generated_code := Some code; raw_result := VNone;
                  formatted_result := None;
                  success := false; error := Some err;
                  stage1_prompt := Some stage1_prompt; stage2_prompt := None |}
      | None =>
          formatted ← lift (format_result result 20);
          let stage2_prompt := build_answer_prompt question formatted in
          answer ← try_except
                     (external Synthesized
                        (generate_answer question formatted code))
                     (fun _ => mret ("Here are the results:" +:+ nl +:+ nl +:+ formatted));
          mret {| question := question; answer := answer;
                  generated_code := Some code; raw_result := result;
                  formatted_result := Some formatted;
                  success := true; error := None;
                  stage1_prompt := Some stage1_prompt;
                  stage2_prompt := Some stage2_prompt |}
      end
  end.

Definition ask (self : RAGPipeline) (question : string) : P PipelineResult :=
  self ← (if decide (dataframes self = ∅) then load self else mret self);
  ask_loaded self question.

End Pipeline.

(** *** Reading the trace of a run *)

Definition is_execution (ev : event) : bool :=
  match ev with Executed _ _ _ => true | _ => false end.

(** The number of calls to [execute_code] in a trace. *)
Definition count_executions (tr : list event) : nat :=
  length (List.filter is_execution tr).

(** Every execution attempt of the trace ended in an error. *)
Definition all_failed (tr : list event) : bool :=
  forallb (fun ev => match ev with
                     | Executed _ (_, None) _ => false
                     | _ => true
                     end) tr.

(** Every call to the code generator of the trace returned code. *)
Definition generator_available (tr : list event) : bool :=
  forallb (fun ev => match ev with
                     | Generated (inl _) | Regenerated (inl _) => false
                     | _ => true
                     end) tr.

(** No call to the answer synthesizer in the trace. *)
Definition no_synthesis (tr : list event) : bool :=
  forallb (fun ev => match ev with Synthesized _ => false | _ => true end) tr.

Definition nonempty_error (error : option string) : Prop :=
  exists e, error = Some e /\ e <> "".

(** ** MiniPy: the runtime on a fragment of Python

    A concrete [Runtime] for programs made of the simple statements
    [pass], [import m], [t1 = ... = e] and [e], one per line, where an
    expression is a name, [None], [True], [False], a decimal integer, a
    float literal made of digits, the letter e or E and digits ([1e3],
    [1e999]),
    or a comma-separated tuple of those.  On this fragment the parser returns the
    tree [ast.parse] returns and the interpreter does what [exec] and [eval]
    do when the globals carry the restricted builtins; other text is a
    syntax error here. *)

Module MiniPy.

Inductive token : Type :=
| TName (s : string)
| TInt (z : Z)
| TFloat (f : pyfloat)
| TEq
| TComma.

Definition is_digit (c : ascii) : bool :=
  let n := ord c in ((48 <=? n) && (n <=? 57))%N.

Definition is_ident_start (c : ascii) : bool :=
  let n := ord c in
  ((65 <=? n) && (n <=? 90) || (97 <=? n) && (n <=? 122) || (n =? 95))%N.

Definition is_ident_char (c : ascii) : bool := is_ident_start c || is_digit c.

Definition KEYWORDS : list string :=
  [ "False"; "None"; "True"; "and"; "as"; "assert"; "async"; "await";
    "break"; "class"; "continue"; "def"; "del"; "elif"; "else"; "except";
    "finally"; "for"; "from"; "global"; "if"; "import"; "in"; "is";
    "lambda"; "nonlocal"; "not"; "or"; "pass"; "raise"; "return"; "try";
    "while"; "with"; "yield" ].

Definition is_keyword (s : string) : bool := existsb (String.eqb s) KEYWORDS.

(** The longest prefix of [s] whose characters satisfy [p], and the rest. *)
Fixpoint span (p : ascii -> bool) (s : string) : string * string :=
  match s with
  | String c s' =>
      if p c then let '(a, b) := span p s' in (String c a, b)
      else (EmptyString, s)
  | EmptyString => (EmptyString, EmptyString)
  end.

Definition digit_value (c : ascii) : Z := Z.of_N (ord c) - 48.

Fixpoint digits_value (acc : Z) (s : string) : Z :=
  match s with
  | EmptyString => acc
  | String c s' => digits_value (10 * acc + digit_value c) s'
  end.

(** The exponent of a float literal at the head of [s]: the letter e or E,
    its digits, and the text after them. *)
Definition exponent (s : string) : option (string * string) :=
  match s with
  | String c s' =>
      if Ascii.eqb c "e" || Ascii.eqb c "E" then
        match span is_digit s' with
        | (EmptyString, _) => None
        | (digits, rest) => Some (digits, rest)
        end
      else None
  | EmptyString => None
  end.

(** The float that the literal [m e k] denotes: the binary64 number nearest
    to [m * 10 ^ k], ties to even, and infinity from [2 ^ 1024 - 2 ^ 970]
    on. *)
Definition float_of_decimal (m k : Z) : pyfloat :=
  SpecFloat.binary_normalize 53 1024 (m * 10 ^ k) 0 false.

(** The tokens of one line; [fuel] bounds the number of tokens. *)
Fixpoint tokenize (fuel : nat) (s : string) : option (list token) :=
  match fuel with
  | O => match s with EmptyString => Some [] | _ => None end
  | S fuel' =>
      match s with
      | EmptyString => Some []
      | String c s' =>
          if Ascii.eqb c " " then tokenize fuel' s'
          else if Ascii.eqb c "=" then cons TEq <$> tokenize fuel' s'
          else if Ascii.eqb c "," then cons TComma <$> tokenize fuel' s'
          else if is_ident_start c then
            let '(word, rest) := span is_ident_char s in
            cons (TName word) <$> tokenize fuel' rest
          else if is_digit c then
            let '(word, rest) := span is_digit s in
            match word with
            | String "0" (String _ _) => None
            | _ =>
                match exponent rest with
                | Some (digits, rest') =>
                    cons (TFloat (float_of_decimal (digits_value 0 word)
                                                   (digits_value 0 digits)))
                      <$> tokenize fuel' rest'
                | None => cons (TInt (digits_value 0 word)) <$> tokenize fuel' rest
                end
            end
          else None
      end
  end.

(** The pieces of [ts] between the occurrences of a separator. *)
Fixpoint pieces (is_sep : token -> bool) (ts : list token) : list (list token) :=
  match ts with
  | [] => [[]]
  | t :: ts' =>
      if is_sep t then [] :: pieces is_sep ts'
      else match pieces is_sep ts' with
           | p :: ps => (t :: p) :: ps
           | [] => [[t]]
           end
  end.

Definition is_eq (t : token) : bool := match t with TEq => true | _ => false end.
Definition is_comma (t : token) : bool := match t with TComma => true | _ => false end.

Definition parse_atom (ts : list token) : option expr :=
  match ts with
  | [TInt z] => Some (Constant (KInt z))
  | [TFloat f] => Some (Constant (KFloat f))
  | [TName "None"] => Some (Constant KNone)
  | [TName "True"] => Some (Constant (KBool true))
  | [TName "False"] => Some (Constant (KBool false))
  | [TName id] => if is_keyword id then None else Some (Name id)
  | _ => None
  end.

(** An atom, or two or more atoms separated by commas: a tuple. *)
Definition parse_expr (ts : list token) : option expr :=
  match pieces is_comma ts with
  | [one] => parse_atom one
  | several => Tuple <$> mapM parse_atom several
  end.

(** What may stand on the left of [=]. *)
Definition is_target (e : expr) : bool :=
  match e with
  | Name _ => true
  | Tuple elts => forallb (fun t => match t with Name _ => true | _ => false end) elts
  | _ => false
  end.

Definition parse_stmt (ts : list token) : option stmt :=
  match ts with
  | [TName "pass"] => Some Pass
  | [TName "import"; TName m] => if is_keyword m then None else Some (Import m)
  | _ =>
      match reverse (pieces is_eq ts) with
      | [] => None
      | [only] => Expr <$> parse_expr only
      | last_piece :: firsts =>
          targets ← mapM parse_expr (reverse firsts);
          value ← parse_expr last_piece;
          if forallb is_target targets then Some (Assign targets value) else None
      end
  end.

Definition parse_line (line : string) : option (list stmt) :=
  if String.eqb (strip line) "" then Some []
  else if startswith " " line then None
  else s ← (tokenize (String.length line) line ≫= parse_stmt); Some [s].

Definition parse (code : string) : string + list stmt :=
  match mapM parse_line (split code NL) with
  | Some groups => inr (concat groups)
  | None => inl "invalid syntax"
  end.

(** The restricted builtins of the executor, [SAFE_BUILTINS]. *)
Definition SAFE_BUILTINS : list (string * value) :=
  [ ("len", VObject "builtin_function_or_method" "len");
    ("sum", VObject "builtin_function_or_method" "sum");
    ("min", VObject "builtin_function_or_method" "min");
    ("max", VObject "builtin_function_or_method" "max");
    ("abs", VObject "builtin_function_or_method" "abs");
    ("round", VObject "builtin_function_or_method" "round");
    ("sorted", VObject "builtin_function_or_method" "sorted");
    ("list", VObject "type" "list");
    ("dict", VObject "type" "dict");
    ("str", VObject "type" "str");
    ("int", VObject "type" "int");
    ("float", VObject "type" "float");
    ("bool", VObject "type" "bool");
    ("tuple", VObject "type" "tuple");
    ("set", VObject "type" "set");
    ("range", VObject "type" "range");
    ("enumerate", VObject "type" "enumerate");
    ("zip", VObject "type" "zip");
    ("True", VBool true);
    ("False", VBool false);
    ("None", VNone) ].

Fixpoint assoc (key : string) (table : list (string * value)) : option value :=
  match table with
  | [] => None
  | (k, v) :: rest => if String.eqb k key then Some v else assoc key rest
  end.

(** Reading a name: the locals, then the globals, then the builtins that
    the globals carry under [__builtins__]. *)
Definition load_name (id : string) (g l : scope) : exn + value :=
  match l !! id with
  | Some v => inr v
  | None =>
      match g !! id with
      | Some v => inr v
      | None =>
          match g !! "__builtins__" with
          | Some (VObject "dict" "SAFE_BUILTINS") =>
              match assoc id SAFE_BUILTINS with
              | Some v => inr v
              | None => inl (Raise "NameError" ("name '" +:+ id +:+ "' is not defined"))
              end
          | _ => inl (Raise "NameError" ("name '" +:+ id +:+ "' is not defined"))
          end
      end
  end.

(** Attribute references and subscripts are outside the fragment: the
    parser returns none, and the interpreter refuses them. *)
Definition outside_fragment : exn :=
  Raise "NotImplementedError" "attribute references and subscripts".

Definition constant_value (k : constant) : value :=
  match k with
  | KNone => VNone
  | KBool b => VBool b
  | KInt z => VInt z
  | KFloat f => VFloat f
  | KStr s => VStr s
  end.

Fixpoint eval_expr (e : expr) (g l : scope) {struct e} : exn + value :=
  let fix eval_all (es : list expr) : exn + list value :=
    match es with
    | [] => inr []
    | e' :: es' =>
        match eval_expr e' g l with
        | inl x => inl x
        | inr v =>
            match eval_all es' with
            | inl x => inl x
            | inr vs => inr (v :: vs)
            end
        end
    end in
  match e with
  | Constant k => inr (constant_value k)
  | Name id => load_name id g l
  | Tuple elts =>
      match eval_all elts with inl x => inl x | inr vs => inr (VTuple vs) end
  | List elts =>
      match eval_all elts with inl x => inl x | inr vs => inr (VList vs) end
  | Attribute _ _ | Subscript _ _ => inl outside_fragment
  end.

Definition type_name (v : value) : string :=
  match v with
  | VNone => "NoneType"
  | VBool _ => "bool"
  | VInt _ => "int"
  | VFloat _ => "float"
  | VStr _ => "str"
  | VList _ => "list"
  | VTuple _ => "tuple"
  | VDataFrame _ => "DataFrame"
  | VSeries _ => "Series"
  | VObject t _ => t
  end.

Definition cell_value (c : cell) : value :=
  match c with
  | CellStr s => VStr s
  | CellInt z => VInt z
  | CellFloat f => VFloat f
  | CellBool b => VBool b
  | CellDate d => VObject "Timestamp" (str_int d)
  end.

Fixpoint chars (s : string) : list value :=
  match s with
  | EmptyString => []
  | String c s' => VStr (String c EmptyString) :: chars s'
  end.

(** The items that unpacking [v] yields. *)
Definition unpack_items (v : value) : exn + list value :=
  match v with
  | VList elts | VTuple elts => inr elts
  | VStr s => inr (chars s)
  | VDataFrame df => inr (VStr <$> df_columns df)
  | VSeries sr => inr ((fun item => cell_value (snd item)) <$> sr_items sr)
  | _ => inl (Raise "TypeError"
                ("cannot unpack non-iterable " +:+ type_name v +:+ " object"))
  end.

Definition str_nat (n : nat) : string := str_int (Z.of_nat n).

(** Binding a target of an assignment to a value, in the locals. *)
Fixpoint assign_target (t : expr) (v : value) (l : scope) {struct t} : exn + scope :=
  let fix assign_all (ts : list expr) (vs : list value) (l : scope) : exn + scope :=
    match ts, vs with
    | [], _ => inr l
    | t' :: ts', v' :: vs' =>
        match assign_target t' v' l with
        | inl x => inl x
        | inr l' => assign_all ts' vs' l'
        end
    | _ :: _, [] => inr l
    end in
  match t with
  | Name id => inr (<[id := v]> l)
  | Tuple elts | List elts =>
      match unpack_items v with
      | inl x => inl x
      | inr vs =>
          if (length elts <? length vs)%nat then
            inl (Raise "ValueError"
                   ("too many values to unpack (expected " +:+
                    str_nat (length elts) +:+ ")"))
          else if (length vs <? length elts)%nat then
            inl (Raise "ValueError"
                   ("not enough values to unpack (expected " +:+
                    str_nat (length elts) +:+ ", got " +:+
                    str_nat (length vs) +:+ ")"))
          else assign_all elts vs l
      end
  | Constant _ => inl (Raise "SyntaxError" "cannot assign to literal")
  | Attribute _ _ | Subscript _ _ => inl outside_fragment
  end.

Definition exec_stmt (s : stmt) (g l : scope) : exn + (scope * scope) :=
  match s with
  | Assign targets value =>
      match eval_expr value g l with
      | inl x => inl x
      | inr v =>
          match
            foldl (fun acc t => match acc with
                                | inl x => inl x
                                | inr l' => assign_target t v l'
                                end) (inr l) targets
          with
          | inl x => inl x
          | inr l' => inr (g, l')
          end
      end
  | Expr value =>
      match eval_expr value g l with
      | inl x => inl x
      | inr _ => inr (g, l)
      end
  | Pass => inr (g, l)
  | Import _ => inl (Raise "ImportError" "__import__ not found")
  end.

Fixpoint exec_body (body : list stmt) (g l : scope) : exn + (scope * scope) :=
  match body with
  | [] => inr (g, l)
  | s :: rest =>
      match exec_stmt s g l with
      | inl x => inl x
      | inr (g', l') => exec_body rest g' l'
      end
  end.

(** Evaluating the elements of a display, left to right. *)
Definition eval_all (g l : scope) : list expr -> exn + list value :=
  fix all (es : list expr) : exn + list value :=
    match es with
    | [] => inr []
    | e' :: es' =>
        match eval_expr e' g l with
        | inl x => inl x
        | inr v =>
            match all es' with
            | inl x => inl x
            | inr vs => inr (v :: vs)
            end
        end
    end.

#[export] Instance runtime : Runtime :=
  {| ast_parse := parse; exec := exec_body; eval := eval_expr |}.

End MiniPy.

(** Sample tables and runs of the executor on MiniPy. *)

Definition clients_df : DataFrame :=
  {| df_columns := ["client_name"; "country"];
     df_rows := [ [CellStr "Acme GmbH"; CellStr "Germany"];
                  [CellStr "Bright Legal"; CellStr "UK"];
                  [CellStr "Nordic Oil"; CellStr "Norway"] ] |}.

Definition sample_tables : gmap string DataFrame := {[ "clients_df" := clients_df ]}.

Definition run_mini (code : string) := @execute_code MiniPy.runtime code sample_tables [].

(** ** A stand-in renderer for sample runs

    One line per row, the cells separated by one space.  The renderers of
    pandas pad and align the columns; no property above depends on how the
    rows are drawn. *)

Module PlainText.

Definition cell_text (c : cell) : string :=
  match c with
  | CellStr s => s
  | CellInt z => str_int z
  | CellFloat f => PyFloat.format_2f f
  | CellBool b => if b then "True" else "False"
  | CellDate d => str_int d
  end.

Definition row_text (index : bool) (i : nat) (row : list cell) : string :=
  (if index then str_int (Z.of_nat i) +:+ " " else "") +:+
  join " " (cell_text <$> row).

Definition table_text (index : bool) (df : DataFrame) : string :=
  join nl (join " " (df_columns df) :: imap (row_text index) (df_rows df)).

Definition series_text (sr : Series) : string :=
  join nl ((fun item => cell_text (fst item) +:+ " " +:+ cell_text (snd item))
             <$> sr_items sr).

Definition value_text (v : value) : string :=
  match v with
  | VNone => "None"
  | VBool b => if b then "True" else "False"
  | VInt z => str_int z
  | VStr s => s
  | _ => "<" +:+ MiniPy.type_name v +:+ ">"
  end.

#[export] Instance rendering : Rendering :=
  {| df_to_string := table_text; sr_to_string := series_text; py_str := value_text |}.

End PlainText.

Definition totals : Series :=
  {| sr_items := [ (CellStr "Germany", CellInt 1200); (CellStr "UK", CellInt 800);
                   (CellStr "Norway", CellInt 450) ] |}.

(** ** Scripted collaborators for sample runs

    The outside world is the list of responses the language model will
    give, in order; each call takes the next one. *)

Module Scripted.

Definition next (w : list (exn + string)) : (exn + string) * list (exn + string) :=
  match w with
  | [] => (inl (Raise "ConnectionError" "no response"), [])
  | r :: w' => (r, w')
  end.

#[export] Instance services : Services :=
  {| World := list (exn + string);
     load_data := fun _ w => (inr sample_tables, w);
     get_client := fun w => (inr (), w);
     build_code_generation_prompt := fun q _ => "Question: " +:+ q;
     generate_pandas_code := fun _ _ => next;
     generate_code_with_error_feedback := fun _ _ _ _ => next;
     generate_error_response := fun _ _ => next;
     build_answer_prompt := fun q formatted => q +:+ nl +:+ formatted;
     generate_answer := fun _ _ _ => next |}.

End Scripted.

Definition demo_pipeline : RAGPipeline :=
  {| data_dir := "data"; max_retries := 2; dataframes := sample_tables |}.

Definition run_ask (script : list (exn + string)) :=
  @ask MiniPy.runtime PlainText.rendering Scripted.services demo_pipeline
       "Which clients are there?" (script, []).

(** Three candidate programs that all fail, then the explanation. *)
Definition failing_script : list (exn + string) :=
  [ inr "os.system('ls')"; inr "x = clients_df"; inr "import json";
    inr "Sorry, that did not work." ].

(** One program that succeeds, then the synthesizer is down. *)
Definition fallback_script : list (exn + string) :=
  [ inr "clients_df"; inl (Raise "APIConnectionError" "Connection error.") ].

(** ** Induction principles for the nested types *)

Section ValueInduction.
Variable P : value -> Prop.
Hypothesis HNone : P VNone.
Hypothesis HBool : forall b, P (VBool b).
Hypothesis HInt : forall z, P (VInt z).
Hypothesis HFloat : forall f, P (VFloat f).
Hypothesis HStr : forall s, P (VStr s).
Hypothesis HList : forall elts, Forall P elts -> P (VList elts).
Hypothesis HTuple : forall elts, Forall P elts -> P (VTuple elts).
Hypothesis HDataFrame : forall df, P (VDataFrame df).
Hypothesis HSeries : forall sr, P (VSeries sr).
Hypothesis HObject : forall t n, P (VObject t n).

(** Induction on values that reaches the elements of lists and tuples. *)
Fixpoint value_nested_ind (v : value) : P v :=
  let fix all (l : list value) : Forall P l :=
    match l with
    | [] => @List.Forall_nil value P
    | x :: l' => @List.Forall_cons value P x l' (value_nested_ind x) (all l')
    end in
  match v with
  | VNone => HNone
  | VBool b => HBool b
  | VInt z => HInt z
  | VFloat f => HFloat f
  | VStr s => HStr s
  | VList elts => HList elts (all elts)
  | VTuple elts => HTuple elts (all elts)
  | VDataFrame df => HDataFrame df
  | VSeries sr => HSeries sr
  | VObject t n => HObject t n
  end.

End ValueInduction.

Section ExprInduction.
Variable P : expr -> Prop.
Hypothesis HConstant : forall k, P (Constant k).
Hypothesis HName : forall id, P (Name id).
Hypothesis HTupleE : forall elts, Forall P elts -> P (Tuple elts).
Hypothesis HListE : forall elts, Forall P elts -> P (List elts).
Hypothesis HAttribute : forall value attr, P value -> P (Attribute value attr).
Hypothesis HSubscript :
  forall value slice, P value -> P slice -> P (Subscript value slice).

(** Induction on expressions that reaches the elements of displays. *)
Fixpoint expr_nested_ind (e : expr) : P e :=
  let fix all (l : list expr) : Forall P l :=
    match l with
    | [] => @List.Forall_nil expr P
    | x :: l' => @List.Forall_cons expr P x l' (expr_nested_ind x) (all l')
    end in
  match e with
  | Constant k => HConstant k
  | Name id => HName id
  | Tuple elts => HTupleE elts (all elts)
  | List elts => HListE elts (all elts)
  | Attribute value attr => HAttribute value attr (expr_nested_ind value)
  | Subscript value slice =>
      HSubscript value slice (expr_nested_ind value) (expr_nested_ind slice)
  end.

End ExprInduction.

(** ** Further definitions: statements about the executor *)

(** No pattern of the deny-list stands in [code], in any casing. *)
Definition blocked_free (code : string) : Prop :=
  forall pattern, In pattern BLOCKED_PATTERNS -> ~ occurs_ignoring_case pattern code.

(** The text the executor makes of a caught exception:
    [f"{type(e).__name__}: {str(e)}"]. *)
Definition error_text (e : exn) : string := exn_type e +:+ ": " +:+ exn_msg e.


Definition is_exec (c : call) : bool :=
  match c with CallExec _ => true | CallEval _ => false end.

Definition is_eval (c : call) : bool :=
  match c with CallEval _ => true | CallExec _ => false end.

(** ** Further definitions: statements about the formatter *)

(** A float whose value is an integer: [result == int(result)]. *)
Definition is_integral (f : pyfloat) : bool :=
  match PyFloat.to_int f with
  | inr i => PyFloat.eq_int f i
  | inl _ => false
  end.

(** Exactly two characters, both decimal digits. *)
Definition is_two_digits (s : string) : bool :=
  match s with
  | String a (String b EmptyString) => MiniPy.is_digit a && MiniPy.is_digit b
  | _ => false
  end.

Section TableText.
Context `{RD : Rendering}.

(** The text of one table or labeled sequence. *)
Definition format_table_like (max_rows : Z) (v : value) : string :=
  match v with
  | VDataFrame df => format_dataframe df max_rows
  | VSeries sr => format_series sr max_rows
  | _ => ""
  end.

End TableText.

(** ** Further definitions: the shape of a run of the pipeline *)

Definition is_regeneration (ev : event) : bool :=
  match ev with Regenerated _ => true | _ => false end.

(** The number of requests for corrected code in a trace. *)
Definition count_regenerations (tr : list event) : nat :=
  length (List.filter is_regeneration tr).

(** The code and the outcome of the last execution of a trace. *)
Fixpoint last_execution (tr : list event) : option (string * (value * option string)) :=
  match tr with
  | [] => None
  | ev :: rest =>
      match last_execution rest with
      | Some found => Some found
      | None =>
          match ev with
          | Executed code outcome _ => Some (code, outcome)
          | _ => None
          end
      end
  end.

Section RunShapes.
Context `{RT : Runtime} `{RD : Rendering} `{SV : Services}.

(** The runs of the retry loop of [ask]: from the attempts still to make
    and the current code, result and error, to the code, result and error
    the loop ends with and the events of the loop, in order. *)
Inductive loop_run (self : RAGPipeline) :
  list Z -> string -> value -> option string ->
  string * value * option string -> list event -> Prop :=
| loop_done code result error :
    loop_run self [] code result error (code, result, error) []
| loop_success a rest code result error v calls :
    execute_code code (dataframes self) [] = (inr (v, None), calls) ->
    loop_run self (a :: rest) code result error (code, v, None)
      [Executed code (v, None) calls]
| loop_fix_failed a rest code result error e calls x :
    execute_code code (dataframes self) [] = (inr (VNone, Some e), calls) ->
    a < max_retries self ->
    loop_run self (a :: rest) code result error
      (code, VNone, Some ("Code fix failed: " +:+ exn_msg x))
      [Executed code (VNone, Some e) calls; Regenerated (inl x)]
| loop_regenerated a rest code result error e calls code2 out new :
    execute_code code (dataframes self) [] = (inr (VNone, Some e), calls) ->
    a < max_retries self ->
    loop_run self rest code2 VNone (Some e) out new ->
    loop_run self (a :: rest) code result error out
      (Executed code (VNone, Some e) calls :: Regenerated (inr code2) :: new)
| loop_next a rest code result error e calls out new :
    execute_code code (dataframes self) [] = (inr (VNone, Some e), calls) ->
    max_retries self <= a ->
    loop_run self rest code VNone (Some e) out new ->
    loop_run self (a :: rest) code result error out
      (Executed code (VNone, Some e) calls :: new).

(** The text shown when a model call for the answer fails. *)
Definition answer_or (fallback : string) (r : exn + string) : string :=
  match r with inr text => text | inl _ => fallback end.

(** The runs of [ask] once the tables are there: what it returns or
    raises, and the events of the run. *)
Inductive ask_run (self : RAGPipeline) (q : string) :
  exn + PipelineResult -> list event -> Prop :=
| ask_no_code x :
    ask_run self q
      (inr {| question := q;
              answer := "Sorry, I couldn't generate code. Error: " +:+ exn_msg x;
              generated_code := None; raw_result := VNone;
              formatted_result := None; success := false;
              error := Some ("Code generation failed: " +:+ exn_msg x);
              stage1_prompt :=
                Some (build_code_generation_prompt q (dataframes self));
              stage2_prompt := None |})
      [Generated (inl x)]
| ask_gave_up code0 code v err new r :
    loop_run self (range (max_retries self + 1)) code0 VNone None
      (code, v, Some err) new ->
    ask_run self q
      (inr {| question := q;
              answer := answer_or ("Sorry, I couldn't answer your question: " +:+ err) r;
              generated_code := Some code; raw_result := VNone;
              formatted_result := None; success := false;
              error := Some err;
              stage1_prompt :=
                Some (build_code_generation_prompt q (dataframes self));
              stage2_prompt := None |})
      (Generated (inr code0) :: new ++ [Explained r])
| ask_format_raised code0 code v new x :
    loop_run self (range (max_retries self + 1)) code0 VNone None
      (code, v, None) new ->
    format_result v 20 = inl x ->
    ask_run self q (inl x) (Generated (inr code0) :: new)
| ask_answered code0 code v new formatted r :
    loop_run self (range (max_retries self + 1)) code0 VNone None
      (code, v, None) new ->
    format_result v 20 = inr formatted ->
    ask_run self q
      (inr {| question := q;
              answer := answer_or ("Here are the results:" +:+ nl +:+ nl +:+ formatted) r;
              generated_code := Some code; raw_result := v;
              formatted_result := Some formatted; success := true;
              error := None;
              stage1_prompt :=
                Some (build_code_generation_prompt q (dataframes self));
              stage2_prompt := Some (build_answer_prompt q formatted) |})
      (Generated (inr code0) :: new ++ [Synthesized r]).

End RunShapes.

Definition is_failed_execution (ev : event) : bool :=
  match ev with Executed _ (_, Some _) _ => true | _ => false end.

(** The number of executions of a trace that ended in an error. *)
Definition count_failures (tr : list event) : nat :=
  length (List.filter is_failed_execution tr).

(** An event that the retry loop itself records. *)
Definition is_loop_event (ev : event) : bool := is_execution ev || is_regeneration ev.

(** ** Further sample runs: no API key, a negative budget *)

Module NoKey.

(** Collaborators in a world without API key: the tables load, the client
    cannot be made; the model would answer from the script as in
    [Scripted]. *)
#[export] Instance services : Services :=
  {| World := list (exn + string);
     load_data := fun _ w => (inr sample_tables, w);
     get_client := fun w =>
       (inl (Raise "ValueError" "GROQ_API_KEY environment variable is not set"), w);
     build_code_generation_prompt := fun q _ => "Question: " +:+ q;
     generate_pandas_code := fun _ _ => Scripted.next;
     generate_code_with_error_feedback := fun _ _ _ _ => Scripted.next;
     generate_error_response := fun _ _ => Scripted.next;
     build_answer_prompt := fun q formatted => q +:+ nl +:+ formatted;
     generate_answer := fun _ _ _ => Scripted.next |}.

End NoKey.

(** A pipeline that holds no tables yet. *)
Definition unloaded_pipeline : RAGPipeline :=
  {| data_dir := "data"; max_retries := 2; dataframes := ∅ |}.

(** A pipeline built with a negative retry budget. *)
Definition negative_budget_pipeline : RAGPipeline :=
  {| data_dir := "data"; max_retries := -1; dataframes := sample_tables |}.

Definition run_ask_with (self : RAGPipeline) (script : list (exn + string)) :=
  @ask MiniPy.runtime PlainText.rendering Scripted.services self
       "Which clients are there?" (script, []).

Definition run_ask_without_key (script : list (exn + string)) :=
  @ask MiniPy.runtime PlainText.rendering NoKey.services unloaded_pipeline
       "Which clients are there?" (script, []).

(** The code generator is unreachable. *)
Definition generator_down_script : list (exn + string) :=
  [ inl (Raise "APIConnectionError" "Connection error.") ].

(** A rejected program, then a corrected one that runs, then the answer. *)
Definition repaired_script : list (exn + string) :=
  [ inr "os.system('ls')"; inr "clients_df"; inr "There are three clients." ].

(** A rejected program, then every further model call fails. *)
Definition models_down_script : list (exn + string) :=
  [ inr "os.system('ls')"; inl (Raise "APIConnectionError" "Connection error.") ].

(** A program whose value is the float infinity: the literal overflows. *)
Definition overflow_script : list (exn + string) := [ inr "1e999" ].

(** One program and the answer. *)
Definition direct_script : list (exn + string) :=
  [ inr "clients_df"; inr "There are three clients." ].

(** ** src/code_generator.py: cleaning the model's response

    The statements that [generate_pandas_code] and
    [generate_code_with_error_feedback] run on the text of the model's
    response before they return it. *)

(** [s[n:]] *)
Fixpoint slice_from (n : nat) (s : string) : string :=
  match n, s with
  | O, _ => s
  | S _, EmptyString => EmptyString
  | S n', String _ s' => slice_from n' s'
  end.

(** [s[:n]] for [n >= 0] *)
Fixpoint slice_to (n : nat) (s : string) : string :=
  match n, s with
  | O, _ => EmptyString
  | S _, EmptyString => EmptyString
  | S n', String c s' => String c (slice_to n' s')
  end.

(** [s[:-n]] for [n > 0] *)
Definition slice_to_last (n : nat) (s : string) : string :=
  slice_to (String.length s - n) s.

(** [s.endswith(p)] *)
Definition endswith (p s : string) : bool :=
  (String.length p <=? String.length s)%nat &&
  String.eqb (slice_from (String.length s - String.length p) s) p.

(** The text before the first occurrence of [sub] in [s] and the text
    after it; [None] when [sub] does not occur. *)
Fixpoint partition (sub s : string) {struct s} : option (string * string) :=
  if startswith sub s then Some (EmptyString, slice_from (String.length sub) s)
  else match s with
       | EmptyString => None
       | String c s' =>
           match partition sub s' with
           | Some (before, after) => Some (String c before, after)
           | None => None
           end
       end.

(** [re.sub(r'<think>.*?</think>', '', s, flags=re.DOTALL)]: the leftmost
    opening tag that a closing tag follows is removed together with the
    text up to the first such closing tag, and the search goes on behind
    it.  Each round shortens the text, so [fuel] rounds are enough when
    [fuel] is the length of the text. *)
Fixpoint sub_think_blocks (fuel : nat) (s : string) : string :=
  match fuel with
  | O => s
  | S fuel' =>
      match partition "<think>" s with
      | None => s
      | Some (before, inside) =>
          match partition "</think>" inside with
          | None => s
          | Some (_, rest) => before +:+ sub_think_blocks fuel' rest
          end
      end
  end.

Definition remove_think_blocks (s : string) : string :=
  sub_think_blocks (String.length s) s.

(** [re.sub(r'<think>.*', '', s, flags=re.DOTALL)]: everything from the
    first opening tag on is removed. *)
Definition remove_open_think (s : string) : string :=
  match partition "<think>" s with
  | Some (before, _) => before
  | None => s
  end.

(** The response without the reasoning of the model. *)
Definition strip_think (response : string) : string :=
  let code := strip response in
  let code := strip (remove_think_blocks code) in
  if contains "<think>" code then strip (remove_open_think code) else code.

(** The three tests on markdown fences, in the order of the source. *)
Definition strip_fences (code : string) : string :=
  let code := if startswith "```python" code then slice_from 9 code else code in
  let code := if startswith "```" code then slice_from 3 code else code in
  if endswith "```" code then slice_to_last 3 code else code.

(** [code.replace('\\n', '\n')]: each backslash followed by the letter n
    becomes a newline, from left to right. *)
Fixpoint replace_escaped_newlines (s : string) : string :=
  match s with
  | EmptyString => EmptyString
  | String c s' =>
      match s' with
      | String d rest =>
          if Ascii.eqb c "\" && Ascii.eqb d "n"
          then String NL (replace_escaped_newlines rest)
          else String c (replace_escaped_newlines s')
      | EmptyString => String c EmptyString
      end
  end.

(** What [generate_pandas_code] returns for a response of the model. *)
Definition clean_generated_code (response : string) : string :=
  strip (replace_escaped_newlines (strip_fences (strip_think response))).

(** What [generate_code_with_error_feedback] returns for a response of
    the model: the same steps without the replacement of [\n]. *)
Definition clean_fixed_code (response : string) : string :=
  strip (strip_fences (strip_think response)).

(** A response in a python fence. *)
Definition fenced (code : string) : string :=
  "```python" +:+ String NL (code +:+ String NL "```").

(** A response that is a complete reasoning block, a newline and code in
    a python fence. *)
Definition reasoned (reasoning code : string) : string :=
  "<think>" +:+ reasoning +:+ "</think>" +:+ String NL (fenced code).

(** No character of [y] is a character of [sub]. *)
Definition apart (sub y : string) : Prop :=
  forall a, has_char a y = true -> has_char a sub = false.

(** ** src/pipeline.py: [ask_batch] *)

Section Batch.
Context `{RT : Runtime} `{RD : Rendering} `{SV : Services}.

(** [self.ask(question)] together with the pipeline as the call leaves it:
    the tables that the call loaded stay in [self.dataframes]. *)
Definition ask_in (self : RAGPipeline) (question : string)
  : M (World * list event) (RAGPipeline * PipelineResult) :=
  self ← (if decide (dataframes self = ∅) then load self else mret self);
  res ← ask_loaded self question;
  mret (self, res).


End Batch.





(** * Properties *)

(** ** Sample evaluations *)

Example strip_imports_pandas :
  strip_imports ("import pandas as pd" +:+ String NL "x = 1") = "x = 1".
Proof. reflexivity. Qed.

Example str_int_samples :
  str_int 0 = "0" /\ str_int 1000 = "1000" /\ str_int (-5) = "-5".
Proof. repeat split; reflexivity. Qed.

Example format_2f_samples :
  PyFloat.format_2f (SpecFloat.S754_finite false 2001 (-1)) = "1000.50" /\
  PyFloat.format_2f (SpecFloat.S754_finite false 1 (-3)) = "0.12" /\
  PyFloat.format_2f (SpecFloat.S754_finite true 3 (-1)) = "-1.50".
Proof. repeat split; reflexivity. Qed.

Example text_samples :
  split ("a" +:+ nl +:+ nl +:+ "b" +:+ nl) NL = ["a"; ""; "b"; ""] /\
  strip ("  import x " +:+ String "009" "") = "import x" /\
  lower "OS.System(" = "os.system(" /\
  contains "pd" "import pdb" = true /\
  contains "os." "posix" = false.
Proof. repeat split; reflexivity. Qed.

Example head_rows_samples :
  head_rows 2 [1; 2; 3] = [1; 2] /\ head_rows 5 [1; 2; 3] = [1; 2; 3] /\
  head_rows (-1) [1; 2; 3] = [1; 2] /\ head_rows (-5) [1; 2; 3] = [].
Proof. repeat split; reflexivity. Qed.

Example parse_samples :
  MiniPy.parse ("y = 1" +:+ nl +:+ "a, b = c = y, None")
  = inr [ Assign [Name "y"] (Constant (KInt 1));
          Assign [Tuple [Name "a"; Name "b"]; Name "c"]
                 (Tuple [Name "y"; Constant KNone]) ] /\
  MiniPy.parse "import json" = inr [Import "json"] /\
  MiniPy.parse "x ==" = inl "invalid syntax" /\
  MiniPy.parse " x = 1" = inl "invalid syntax".
Proof. repeat split; vm_compute; reflexivity. Qed.

Example run_expression_tail :
  run_mini "clients_df" = (inr (VDataFrame clients_df, None), [CallEval (Name "clients_df")]).
Proof. vm_compute. reflexivity. Qed.

Example run_setup_then_expression :
  run_mini ("y = 5" +:+ nl +:+ "y, len")
  = (inr (VTuple [VInt 5; VObject "builtin_function_or_method" "len"], None),
     [CallExec [Assign [Name "y"] (Constant (KInt 5))];
      CallEval (Tuple [Name "y"; Name "len"])]).
Proof. vm_compute. reflexivity. Qed.

Example run_assignment_tail_scalar :
  fst (run_mini "x = 0") = inr (VInt 0, None) /\
  fst (run_mini "0") = inr (VInt 0, None).
Proof. split; vm_compute; reflexivity. Qed.

Example run_unsafe_import :
  fst (run_mini "import json") = inr (VNone, Some "ImportError: __import__ not found").
Proof. vm_compute. reflexivity. Qed.

Example run_empty_code :
  run_mini "import numpy as np" = (inr (VNone, Some "Empty code"), []).
Proof. vm_compute. reflexivity. Qed.

Example format_result_sequence_of_tables :
  @format_result PlainText.rendering (VList [VDataFrame clients_df; VSeries totals]) 2
  = inr ("DataFrame with 3 rows (showing first 2):" +:+ nl +:+
         "client_name country" +:+ nl +:+
         "Acme GmbH Germany" +:+ nl +:+
         "Bright Legal UK" +:+ nl +:+ nl +:+
         "Series with 3 items (showing first 2):" +:+ nl +:+
         "Germany 1200" +:+ nl +:+
         "UK 800").
Proof. vm_compute. reflexivity. Qed.

(** ** Text lemmas *)

Lemma lower_app (a b : string) : lower (a +:+ b) = lower a +:+ lower b.
Proof. induction a as [|c a IH]; simpl; [reflexivity | now rewrite IH]. Qed.

Lemma lower_split (s a b : string) :
  lower s = a +:+ b -> exists a' b', s = a' +:+ b' /\ lower a' = a /\ lower b' = b.
Proof.
  revert s. induction a as [|c a IH]; intros s Hs.
  - exists EmptyString, s. auto.
  - destruct s as [|d s]; simpl in Hs; [discriminate|].
    injection Hs as Hc Hrest.
    destruct (IH s Hrest) as (a' & b' & -> & Ha & Hb).
    exists (String d a'), b'. simpl. rewrite Hc, Ha. auto.
Qed.

Lemma startswith_app (p s : string) : startswith p (p +:+ s) = true.
Proof.
  induction p as [|c p IH]; simpl; [reflexivity|].
  now rewrite Ascii.eqb_refl, IH.
Qed.

Lemma startswith_inv (p s : string) :
  startswith p s = true -> exists rest, s = p +:+ rest.
Proof.
  revert s. induction p as [|c p IH]; intros s H; simpl in *.
  - now exists s.
  - destruct s as [|d s]; [discriminate|].
    apply andb_prop in H as [Hc Hp]. apply Ascii.eqb_eq in Hc as ->.
    destruct (IH s Hp) as [rest ->]. now exists rest.
Qed.

Lemma contains_cons (sub s : string) (c : ascii) :
  contains sub s = true -> contains sub (String c s) = true.
Proof. intros H. simpl. rewrite H. apply orb_true_r. Qed.

Lemma contains_startswith (sub s : string) :
  startswith sub s = true -> contains sub s = true.
Proof. intros H. destruct s; simpl; now rewrite H. Qed.

Lemma contains_app (pre sub post : string) :
  contains sub (pre +:+ sub +:+ post) = true.
Proof.
  induction pre as [|c pre IH].
  - change (contains sub (sub +:+ post) = true).
    apply contains_startswith, startswith_app.
  - change (contains sub (String c (pre +:+ sub +:+ post)) = true).
    apply contains_cons, IH.
Qed.

Lemma contains_inv (sub s : string) :
  contains sub s = true -> exists pre post, s = pre +:+ sub +:+ post.
Proof.
  induction s as [|c s IH]; simpl; intros H.
  - rewrite orb_false_r in H. destruct (startswith_inv _ _ H) as [rest ->].
    now exists EmptyString, rest.
  - apply orb_prop in H as [H|H].
    + destruct (startswith_inv _ _ H) as [rest ->]. now exists EmptyString, rest.
    + destruct (IH H) as (pre & post & ->). now exists (String c pre), post.
Qed.

Lemma occurs_ignoring_case_iff (token code : string) :
  occurs_ignoring_case token code <-> contains (lower token) (lower code) = true.
Proof.
  split.
  - intros (pre & mid & post & -> & Hmid).
    rewrite !lower_app, Hmid. apply contains_app.
  - intros H. apply contains_inv in H as (pre & post & H).
    apply lower_split in H as (pre' & rest & -> & _ & H).
    apply lower_split in H as (mid & post' & -> & Hmid & _).
    now exists pre', mid, post'.
Qed.

(** ** The validator *)

Section ValidatorFacts.
Context `{RT : Runtime}.

(** The verdict on text that holds a blocked pattern: the first pattern
    of the list that occurs, whatever the parser says. *)
Lemma validate_code_blocked (code pattern : string) :
  find (fun p => contains (lower p) (lower code)) BLOCKED_PATTERNS = Some pattern ->
  validate_code code = (false, Some ("Unsafe pattern detected: " +:+ pattern)).
Proof. intros H. unfold validate_code. now rewrite H. Qed.

(** A rejection always carries a reason, and the reason is not empty. *)
Lemma validate_code_reason (code : string) (reason : option string) :
  validate_code code = (false, reason) ->
  exists text, reason = Some text /\ text <> "".
Proof.
  unfold validate_code.
  destruct (find _ BLOCKED_PATTERNS) as [p|].
  - intros [= <-]. eexists. split; [reflexivity | discriminate].
  - destruct (ast_parse code); intros [= <-].
    eexists. split; [reflexivity | discriminate].
Qed.

(** Accepted text parses. *)
Lemma validate_code_accepts (code : string) (reason : option string) :
  validate_code code = (true, reason) ->
  reason = None /\ exists body, ast_parse code = inr body.
Proof.
  unfold validate_code.
  destruct (find _ BLOCKED_PATTERNS) as [p|]; [discriminate|].
  destruct (ast_parse code) as [msg|body]; [discriminate|].
  intros [= <-]. eauto.
Qed.

(** C3. Code that contains a deny-listed token, in any casing, is
    rejected by [validate_code] whatever the rest of the text is and
    whether or not it parses, and the reason names a deny-listed pattern
    that occurs in the code (the first of the list that does). *)
Theorem validate_code_rejects_blocked (code token : string) :
  In token BLOCKED_PATTERNS ->
  occurs_ignoring_case token code ->
  exists pattern,
    In pattern BLOCKED_PATTERNS /\
    occurs_ignoring_case pattern code /\
    validate_code code = (false, Some ("Unsafe pattern detected: " +:+ pattern)).
Proof.
  intros Hin Hocc. apply occurs_ignoring_case_iff in Hocc.
  destruct (find (fun p => contains (lower p) (lower code)) BLOCKED_PATTERNS)
    as [pattern|] eqn:Hfind.
  - exists pattern. pose proof (find_some _ _ Hfind) as [Hp Hc].
    split; [exact Hp|]. split.
    + now apply occurs_ignoring_case_iff.
    + now apply validate_code_blocked.
  - pose proof (find_none _ _ Hfind token Hin) as Hnone. simpl in Hnone.
    congruence.
Qed.

End ValidatorFacts.

(** C3, at a sample input: a banned call in mixed case inside text that
    does not parse. *)
Lemma validate_code_rejects_blocked_witness :
  exists pattern,
    In pattern BLOCKED_PATTERNS /\
    occurs_ignoring_case pattern "x = (OS.System('ls')" /\
    @validate_code MiniPy.runtime "x = (OS.System('ls')"
      = (false, Some ("Unsafe pattern detected: " +:+ pattern)).
Proof.
  apply (@validate_code_rejects_blocked MiniPy.runtime "x = (OS.System('ls')" "os.").
  - unfold BLOCKED_PATTERNS. simpl. tauto.
  - exists "x = (", "OS.", "System('ls')". split; reflexivity.
Defined.

(** ** The executor *)

(** Unfolds the monad operations in the goal. *)
Ltac unfold_m :=
  unfold try_except, attempt, lift, mbind, M_bind, mret, M_ret in *; simpl in *.

(** Splits the goal on an innermost scrutinee of the program under study. *)
Ltac step_match :=
  match goal with
  | |- context [match ?x with _ => _ end] =>
      lazymatch x with
      | context [match _ with _ => _ end] => fail
      | _ => destruct x eqn:?; simpl
      end
  end.

Section ExecutorFacts.
Context `{RT : Runtime}.

(** C6. Code that [validate_code] rejects once its safe imports are
    stripped makes [execute_code] return no value and the validator's
    reason, and the interpreter log is left as it was: nothing has been
    executed or evaluated. *)
Theorem execute_code_rejected (code : string) (dfs : gmap string DataFrame)
    (reason : option string) (log : list call) :
  validate_code (strip_imports code) = (false, reason) ->
  execute_code code dfs log = (inr (VNone, reason), log).
Proof. intros H. unfold execute_code. rewrite H. reflexivity. Qed.

(** With a parser that fails by [SyntaxError] only, as the interface has
    it, [execute_code] always returns a pair; and a pair that carries an
    error carries no value. *)
Lemma execute_code_returns (code : string) (dfs : gmap string DataFrame)
    (log : list call) :
  exists v err log',
    execute_code code dfs log = (inr (v, err), log') /\
    (v = VNone \/ err = None).
Proof.
  unfold execute_code.
  destruct (validate_code (strip_imports code)) as [[|] reason]; simpl.
  2: { eauto 6. }
  unfold do_exec, do_eval. unfold_m.
  repeat step_match; eauto 6.
Qed.

(** C2, amended. For every input [execute_code] returns a pair with at
    most one component that is not none: a value with no error, an error
    with no value, or neither. *)
Theorem execute_code_at_most_one (code : string) (dfs : gmap string DataFrame)
    (log : list call) :
  exists v err,
    fst (execute_code code dfs log) = inr (v, err) /\
    (v = VNone \/ err = None).
Proof.
  destruct (execute_code_returns code dfs log) as (v & err & log' & H & Hone).
  exists v, err. now rewrite H.
Qed.

(** The error text of an outcome is never empty. *)
Lemma execute_code_error_nonempty (code : string) (dfs : gmap string DataFrame)
    (log log' : list call) (v : value) (err : string) :
  execute_code code dfs log = (inr (v, Some err), log') -> err <> "".
Proof.
  unfold execute_code.
  destruct (validate_code (strip_imports code)) as [[|] reason] eqn:Hv; simpl.
  2: { intros [= _ -> _]. apply validate_code_reason in Hv as (t & [= ->] & Ht).
       exact Ht. }
  unfold do_exec, do_eval. unfold_m.
  repeat step_match; intros H; inversion H; subst; try discriminate.
  all: match goal with
       | |- context [exn_type ?e] => destruct (exn_type e); discriminate
       end.
Qed.

(** C10. When the code passes validation and its last statement is an
    assignment whose first target is not a plain name (a tuple or a list to
    unpack into, a subscript, an attribute), [execute_code] hands the whole
    statement sequence to [exec], once, and its outcome is what that run
    gives: no value and no error when the run returns; no value and the
    text of the exception when it raises.  Nothing is read back and nothing
    is evaluated. *)
Theorem execute_code_assign_no_name (code : string)
    (dfs : gmap string DataFrame) (log : list call)
    (body : list stmt) (targets : list expr) (value : expr) :
  validate_code (strip_imports code) = (true, None) ->
  ast_parse (strip_imports code) = inr body ->
  last body = Some (Assign targets value) ->
  (forall id rest, targets <> Name id :: rest) ->
  execute_code code dfs log
  = (inr (match exec body (initial_globals dfs) ∅ with
          | inr _ => (VNone, None)
          | inl x => (VNone, Some (exn_type x +:+ ": " +:+ exn_msg x))
          end), (log ++ [CallExec body])%list).
Proof.
  intros Hv Hp Hlast Htarget. unfold execute_code.
  rewrite Hv. simpl. unfold do_exec. unfold_m.
  rewrite Hp, Hlast. fold (initial_globals dfs).
  destruct (exec body (initial_globals dfs) ∅) as [x|[g l]]; [reflexivity|].
  destruct targets as [|[k|id|elts|elts|obj attr|obj key] rest]; try reflexivity.
  now destruct (Htarget id rest).
Qed.

(** The assignment branch, on every runtime: what is read back when the
    statements have run and left the variable bound in the locals. *)
Lemma execute_code_assign_name (code : string) (dfs : gmap string DataFrame)
    (log : list call) (body : list stmt) (x : string) (rest : list expr)
    (rhs : expr) (g l : scope) (v : value) :
  validate_code (strip_imports code) = (true, None) ->
  ast_parse (strip_imports code) = inr body ->
  last body = Some (Assign (Name x :: rest) rhs) ->
  exec body (initial_globals dfs) ∅ = inr (g, l) ->
  l !! x = Some v ->
  execute_code code dfs log
  = (match truth v with
     | inl e => inr (VNone, Some (exn_type e +:+ ": " +:+ exn_msg e))
     | inr _ => inr (v, None)
     end, (log ++ [CallExec body])%list).
Proof.
  intros Hv Hp Hlast Hexec Hx. unfold execute_code.
  rewrite Hv. simpl. unfold do_exec. unfold_m.
  rewrite Hp, Hlast. fold (initial_globals dfs). rewrite Hexec.
  unfold py_or, dict_get, dict_update.
  rewrite (lookup_union_Some_l _ _ _ v Hx), Hx. simpl.
  destruct (truth v) as [e|[|]]; reflexivity.
Qed.

End ExecutorFacts.

(** ** Runs on MiniPy *)

(** C6, at the sample input of the specification: a call into [os]. *)
Lemma execute_code_rejected_witness :
  @validate_code MiniPy.runtime (strip_imports "os.system('ls')")
    = (false, Some "Unsafe pattern detected: os.") /\
  @execute_code MiniPy.runtime "os.system('ls')" sample_tables []
    = (inr (VNone, Some "Unsafe pattern detected: os."), []).
Proof.
  split; [reflexivity|].
  apply (@execute_code_rejected MiniPy.runtime "os.system('ls')" sample_tables
           (Some "Unsafe pattern detected: os.") []).
  reflexivity.
Defined.

(** C2, as stated, fails: on [pass] the executor returns neither a value
    nor an error. *)
Lemma execute_code_both_none :
  fst (@execute_code MiniPy.runtime "pass" sample_tables []) = inr (VNone, None).
Proof. vm_compute. reflexivity. Qed.

(** C10, at two sample inputs, each with a tuple-unpacking assignment as
    last statement: one whose run returns and one whose run raises. *)
Lemma execute_code_assign_no_name_witness :
  @execute_code MiniPy.runtime "a, b = 1, 2" sample_tables []
  = (inr (VNone, None),
     [CallExec [Assign [Tuple [Name "a"; Name "b"]]
                  (Tuple [Constant (KInt 1); Constant (KInt 2)])]]) /\
  @execute_code MiniPy.runtime "a, b = 1" sample_tables []
  = (inr (VNone, Some "TypeError: cannot unpack non-iterable int object"),
     [CallExec [Assign [Tuple [Name "a"; Name "b"]] (Constant (KInt 1))]]).
Proof.
  split.
  - rewrite (@execute_code_assign_no_name MiniPy.runtime "a, b = 1, 2"
               sample_tables []
               [Assign [Tuple [Name "a"; Name "b"]]
                  (Tuple [Constant (KInt 1); Constant (KInt 2)])]
               [Tuple [Name "a"; Name "b"]]
               (Tuple [Constant (KInt 1); Constant (KInt 2)])).
    + vm_compute. reflexivity.
    + vm_compute. reflexivity.
    + vm_compute. reflexivity.
    + reflexivity.
    + intros id rest. discriminate.
  - rewrite (@execute_code_assign_no_name MiniPy.runtime "a, b = 1"
               sample_tables []
               [Assign [Tuple [Name "a"; Name "b"]] (Constant (KInt 1))]
               [Tuple [Name "a"; Name "b"]] (Constant (KInt 1))).
    + vm_compute. reflexivity.
    + vm_compute. reflexivity.
    + vm_compute. reflexivity.
    + reflexivity.
    + intros id rest. discriminate.
Defined.

(** C1, at the failing input. With a table as the value, the
    assignment-tail code [x = clients_df] ends in an error, raised by the
    truth test of [... or ...] on the value read back, while the
    expression-tail code [clients_df] returns the table. *)
Theorem assignment_tail_table_is_error :
  fst (@execute_code MiniPy.runtime "x = clients_df" sample_tables [])
    = inr (VNone,
           Some "ValueError: The truth value of a DataFrame is ambiguous. Use a.empty, a.bool(), a.item(), a.any() or a.all().") /\
  fst (@execute_code MiniPy.runtime "clients_df" sample_tables [])
    = inr (VDataFrame clients_df, None).
Proof. split; vm_compute; reflexivity. Qed.

(** ** The import-stripping pass *)

Lemma strip_imports_loop (lines acc : list string) :
  fold_left strip_imports_step lines acc = (acc ++ List.filter kept lines)%list.
Proof.
  revert acc. induction lines as [|line lines IH]; intros acc; simpl.
  - now rewrite app_nil_r.
  - rewrite IH. unfold strip_imports_step, kept.
    destruct (startswith "import " (strip line) || startswith "from " (strip line));
      cbn [andb negb].
    + destruct (existsb (fun safe => contains safe (strip line)) SAFE_IMPORTS);
        cbn [negb]; now rewrite <- ?app_assoc.
    + now rewrite <- app_assoc.
Qed.

(** What the pass does: the lines that are kept, unchanged and in order. *)
Lemma strip_imports_lines (code : string) :
  strip_imports code = join nl (List.filter kept (split code NL)).
Proof. unfold strip_imports. now rewrite strip_imports_loop. Qed.

(** C7, at the failing input. [pdb] is not one of the pre-provided
    modules, yet the line [import pdb] is removed: the test is whether a
    safe name occurs anywhere in the line, and [pd] occurs in [pdb]. *)
Theorem strip_imports_removes_pdb :
  ~ In "pdb" SAFE_IMPORTS /\ strip_imports "import pdb" = "".
Proof.
  split; [|reflexivity].
  unfold SAFE_IMPORTS. simpl. intros H.
  repeat (destruct H as [H|H]; [discriminate|]). exact H.
Qed.

(** ** The formatter *)

Section FormatterFacts.
Context `{RD : Rendering}.

(** C4, at the failing input. On the floating-point scalar NaN the
    formatter raises: [int(result)] is not defined there. *)
Theorem format_result_nan_raises (max_rows : Z) :
  format_result (VFloat SpecFloat.S754_nan) max_rows
  = inl (Raise "ValueError" "cannot convert float NaN to integer").
Proof. reflexivity. Qed.

(** The same on an infinity. *)
Lemma format_result_infinity_raises (s : bool) (max_rows : Z) :
  format_result (VFloat (SpecFloat.S754_infinity s)) max_rows
  = inl (Raise "OverflowError" "cannot convert float infinity to integer").
Proof. reflexivity. Qed.

(** The two scalars of the specification: 1000.0 and 1000.5. *)
Example format_result_floats (max_rows : Z) :
  format_result (VFloat (SpecFloat.S754_finite false 125 3)) max_rows = inr "1000" /\
  format_result (VFloat (SpecFloat.S754_finite false 2001 (-1))) max_rows = inr "1000.50".
Proof. split; reflexivity. Qed.

End FormatterFacts.

(** ** The truncation law of the formatter *)

Lemma has_char_app (c : ascii) (a b : string) :
  has_char c (a +:+ b) = has_char c a || has_char c b.
Proof.
  induction a as [|d a IH]; [reflexivity|].
  change (has_char c (String d (a +:+ b)) = has_char c (String d a) || has_char c b).
  simpl. now rewrite IH, orb_assoc.
Qed.

Lemma contains_has_char (sub s : string) (c : ascii) :
  contains sub s = true -> has_char c sub = true -> has_char c s = true.
Proof.
  intros H Hc. apply contains_inv in H as (pre & post & ->).
  rewrite !has_char_app, Hc. now rewrite orb_true_r.
Qed.

Lemma str_int_no_g (z : Z) : has_char "g" (str_int z) = false.
Proof.
  assert (Hu : forall u, has_char "g" (NilEmpty.string_of_uint u) = false)
    by (induction u; simpl; auto).
  assert (Hz : forall u, has_char "g" (NilZero.string_of_uint u) = false)
    by (intros u; destruct u; try reflexivity; apply Hu).
  unfold str_int, NilZero.string_of_int.
  destruct (Z.to_int z); [apply Hz|]. simpl. apply Hz.
Qed.

(** A header without parenthesised part carries no truncation note. *)
Lemma plain_header_no_note (kind unit : string) (n : Z) :
  has_char "g" kind = false -> has_char "g" unit = false ->
  contains "showing first" (kind +:+ str_int n +:+ unit) = false.
Proof.
  intros Hk Hu.
  destruct (contains "showing first" (kind +:+ str_int n +:+ unit)) eqn:E;
    [|reflexivity].
  apply (contains_has_char _ _ "g") in E; [|reflexivity].
  rewrite !has_char_app, Hk, Hu, str_int_no_g in E. discriminate.
Qed.

Lemma length_head_rows {A} (n : Z) (rows : list A) :
  0 <= n < Z.of_nat (length rows) ->
  Z.of_nat (length (head_rows n rows)) = n.
Proof.
  intros Hn. unfold head_rows.
  destruct (Z.leb_spec 0 n); [|lia]. rewrite length_take. lia.
Qed.

Lemma head_rows_prefix {A} (n : Z) (rows : list A) :
  exists rest, rows = (head_rows n rows ++ rest)%list.
Proof.
  unfold head_rows. destruct (0 <=? n); eexists; symmetry; apply take_drop.
Qed.

Section TruncationLaw.
Context `{RD : Rendering}.

Lemma string_app_assoc (a b c : string) : (a +:+ b) +:+ c = a +:+ b +:+ c.
Proof.
  induction a as [|x a IH]; [reflexivity|].
  change (String x ((a +:+ b) +:+ c) = String x (a +:+ b +:+ c)).
  now rewrite IH.
Qed.

Lemma table_truncation_nonneg (df : DataFrame) (max_rows : Z) :
  0 <= max_rows -> table_truncation_law df max_rows.
Proof.
  intros Hm. unfold table_truncation_law. cbn zeta. split; intros Hn.
  - exists (df_head max_rows df). split; [|split].
    + unfold df_len, df_head. simpl. apply length_head_rows.
      unfold df_len in Hn. lia.
    + apply head_rows_prefix.
    + simpl. unfold format_dataframe.
      destruct (Z.gtb_spec (df_len df) max_rows); [|lia].
      cbn zeta. now rewrite !string_app_assoc.
  - eexists. split; [|split; [reflexivity|]].
    + apply (plain_header_no_note "DataFrame with " (" rows:" +:+ nl)); reflexivity.
    + simpl. unfold format_dataframe.
      destruct (Z.gtb_spec (df_len df) max_rows); [lia|].
      now rewrite !string_app_assoc.
Qed.

Lemma series_truncation_nonneg (sr : Series) (max_rows : Z) :
  0 <= max_rows -> series_truncation_law sr max_rows.
Proof.
  intros Hm. unfold series_truncation_law. cbn zeta. split; intros Hn.
  - exists (sr_head max_rows sr). split; [|split].
    + unfold sr_len, sr_head. simpl. apply length_head_rows.
      unfold sr_len in Hn. lia.
    + apply head_rows_prefix.
    + simpl. unfold format_series.
      destruct (Z.gtb_spec (sr_len sr) max_rows); [|lia].
      cbn zeta. now rewrite !string_app_assoc.
  - eexists. split; [|split; [reflexivity|]].
    + apply (plain_header_no_note "Series with " (" items:" +:+ nl)); reflexivity.
    + simpl. unfold format_series.
      destruct (Z.gtb_spec (sr_len sr) max_rows); [lia|].
      now rewrite !string_app_assoc.
Qed.

(** C5, amended. For every table or labeled sequence of size [n] and
    every [max_rows] that is not negative: if [n > max_rows] the header
    states [n] and the truncation, and the body is the rendering of
    exactly [max_rows] entries; if [n <= max_rows] the header states [n]
    without truncation note and the body is the rendering of all [n]
    entries. *)
Theorem truncation_law_nonneg (df : DataFrame) (sr : Series) (max_rows : Z) :
  0 <= max_rows ->
  table_truncation_law df max_rows /\ series_truncation_law sr max_rows.
Proof.
  intros Hm. split.
  - now apply table_truncation_nonneg.
  - now apply series_truncation_nonneg.
Qed.

(** What the truncated branch shows: the slice [rows[:max_rows]]. *)
Lemma format_result_truncated (df : DataFrame) (max_rows : Z) :
  df_len df > max_rows ->
  format_result (VDataFrame df) max_rows
  = inr ("DataFrame with " +:+ str_int (df_len df) +:+ " rows (showing first " +:+
         str_int max_rows +:+ "):" +:+ nl +:+
         df_to_string false (df_head max_rows df)).
Proof.
  intros Hn. simpl. unfold format_dataframe.
  destruct (Z.gtb_spec (df_len df) max_rows); [|lia].
  cbn zeta. now rewrite !string_app_assoc.
Qed.

End TruncationLaw.

Example format_result_truncated_table :
  @format_result PlainText.rendering (VDataFrame clients_df) 2
  = inr ("DataFrame with 3 rows (showing first 2):" +:+ nl +:+
         "client_name country" +:+ nl +:+
         "Acme GmbH Germany" +:+ nl +:+
         "Bright Legal UK").
Proof. vm_compute. reflexivity. Qed.

(** C5, amended, at a sample input: three entries, two shown. *)
Lemma truncation_law_nonneg_witness :
  0 <= 2 /\
  @table_truncation_law PlainText.rendering clients_df 2 /\
  @series_truncation_law PlainText.rendering totals 2.
Proof.
  split; [lia|].
  apply (@truncation_law_nonneg PlainText.rendering clients_df totals 2). lia.
Defined.

(** C5, as stated, fails for a negative [max_rows]: with three rows and
    [max_rows = -1] the truncated branch is taken, the header says
    "showing first -1" and the body holds two rows; no body has -1 entries. *)
Lemma truncation_law_negative_max_rows :
  @format_result PlainText.rendering (VDataFrame clients_df) (-1)
  = inr ("DataFrame with 3 rows (showing first -1):" +:+ nl +:+
         @df_to_string PlainText.rendering false (df_head (-1) clients_df)) /\
  length (df_rows (df_head (-1) clients_df)) = 2%nat /\
  ~ @table_truncation_law PlainText.rendering clients_df (-1).
Proof.
  split; [vm_compute; reflexivity|]. split; [reflexivity|].
  intros [Htrunc _]. destruct Htrunc as (body & Hlen & _).
  - unfold df_len. simpl. lia.
  - unfold df_len in Hlen. lia.
Qed.

(** ** The retry loop and [ask] *)

Lemma count_executions_app (a b : list event) :
  count_executions (a ++ b) = (count_executions a + count_executions b)%nat.
Proof. unfold count_executions. now rewrite List.filter_app, length_app. Qed.

Section PipelineFacts.
Context `{RT : Runtime} `{RD : Rendering} `{SV : Services}.

Lemma run_execute_code_spec (code : string) (dfs : gmap string DataFrame)
    (w : World) (tr : list event) :
  exists v err calls,
    run_execute_code code dfs (w, tr)
    = (inr (v, err), (w, (tr ++ [Executed code (v, err) calls])%list)) /\
    (forall e, err = Some e -> e <> "").
Proof.
  destruct (execute_code_returns code dfs []) as (v & err & calls & H & _).
  exists v, err, calls. unfold run_execute_code. rewrite H. split; [reflexivity|].
  intros e ->. eapply execute_code_error_nonempty. exact H.
Qed.

(** What the loop does on the attempts still to run: it returns, it makes
    at most one execution per attempt and no synthesis call, and when all
    its executions fail it ends with an error that is not empty, after
    exactly one execution per attempt if the generator kept answering. *)
Lemma retry_loop_spec (self : RAGPipeline) (q : string) (attempts : list Z) :
  forall (code : string) (result : value) (error : option string)
         (w : World) (tr : list event),
  exists code' result' error' w' new,
    retry_loop self q attempts code result error (w, tr)
    = (inr (code', result', error'), (w', (tr ++ new)%list)) /\
    (count_executions new <= length attempts)%nat /\
    no_synthesis new = true /\
    (all_failed new = true -> nonempty_error error -> nonempty_error error') /\
    (all_failed new = true -> attempts <> [] -> nonempty_error error') /\
    (all_failed new = true -> generator_available new = true ->
     count_executions new = length attempts) /\
    (error' = None -> all_failed new = false \/ error = None).
Proof.
  induction attempts as [|a rest IH]; intros code result error w tr.
  - exists code, result, error, w, []. rewrite app_nil_r.
    split; [reflexivity|]. split; [apply Nat.le_refl|]. split; [reflexivity|].
    split; [tauto|]. split; [intros _ H; now destruct H|].
    split; [reflexivity|]. intros ->. now right.
  - destruct (run_execute_code_spec code (dataframes self) w tr)
      as (v & err & calls & Hrun & Herr).
    cbn [retry_loop]. unfold mbind, M_bind at 1. rewrite Hrun.
    destruct err as [e|].
    + assert (He : nonempty_error (Some e)) by (exists e; auto).
      destruct (a <? max_retries self).
      * unfold attempt, external, mbind, M_bind.
        destruct (generate_code_with_error_feedback q (dataframes self) code e w)
          as [[x|code2] w1].
        -- exists code, v, (Some ("Code fix failed: " +:+ exn_msg x)), w1,
             [Executed code (v, Some e) calls; Regenerated (inl x)].
           assert (Hfix : nonempty_error (Some ("Code fix failed: " +:+ exn_msg x)))
             by (eexists; split; [reflexivity | discriminate]).
           rewrite <- app_assoc.
           split; [reflexivity|]. split; [cbn; lia|]. split; [reflexivity|].
           split; [auto|]. split; [auto|].
           split; [intros _ H; discriminate H | discriminate].
        -- destruct (IH code2 v (Some e) w1
                      ((tr ++ [Executed code (v, Some e) calls]) ++
                       [Regenerated (inr code2)])%list)
             as (c' & r' & e' & w' & new & Hloop & Hcount & Hsyn & HA & HB & HC & HD).
           exists c', r', e', w',
             (Executed code (v, Some e) calls :: Regenerated (inr code2) :: new).
           rewrite Hloop, <- !app_assoc.
           change (count_executions (Executed code (v, Some e) calls ::
                     Regenerated (inr code2) :: new))
             with (S (count_executions new)).
           split; [reflexivity|]. split; [simpl; lia|]. split; [exact Hsyn|].
           split; [intros Hall _; now apply HA|].
           split; [intros Hall _; now apply HA|].
           split; [intros Hall Hgen; simpl; f_equal; now apply HC|].
           intros Hnone. destruct (HD Hnone) as [H|H]; [now left | discriminate].
      * destruct (IH code v (Some e) w (tr ++ [Executed code (v, Some e) calls])%list)
          as (c' & r' & e' & w' & new & Hloop & Hcount & Hsyn & HA & HB & HC & HD).
        exists c', r', e', w', (Executed code (v, Some e) calls :: new).
        rewrite Hloop, <- !app_assoc.
        change (count_executions (Executed code (v, Some e) calls :: new))
          with (S (count_executions new)).
        split; [reflexivity|]. split; [simpl; lia|]. split; [exact Hsyn|].
        split; [intros Hall _; now apply HA|].
        split; [intros Hall _; now apply HA|].
        split; [intros Hall Hgen; simpl; f_equal; now apply HC|].
        intros Hnone. destruct (HD Hnone) as [H|H]; [now left | discriminate].
    + exists code, v, None, w, [Executed code (v, None) calls].
      split; [reflexivity|]. split; [cbn; lia|]. split; [reflexivity|].
      split; [intros H; discriminate H|]. split; [intros H; discriminate H|].
      split; [intros H; discriminate H|]. intros _. now left.
Qed.

End PipelineFacts.

Section AskFacts.
Context `{RT : Runtime} `{RD : Rendering} `{SV : Services}.

Lemma all_failed_app (a b : list event) :
  all_failed (a ++ b) = all_failed a && all_failed b.
Proof. apply forallb_app. Qed.

Lemma all_failed_skip (ev : event) (tr : list event) :
  is_execution ev = false -> all_failed (ev :: tr) = all_failed tr.
Proof. now destruct ev. Qed.

Lemma count_executions_skip (ev : event) (tr : list event) :
  is_execution ev = false -> count_executions (ev :: tr) = count_executions tr.
Proof. intros H. unfold count_executions. simpl. now rewrite H. Qed.

Lemma count_executions_snoc (ev : event) (tr : list event) :
  is_execution ev = false -> count_executions (tr ++ [ev]) = count_executions tr.
Proof.
  intros H. rewrite count_executions_app.
  rewrite (count_executions_skip ev [] H). apply Nat.add_0_r.
Qed.

Lemma generator_available_init (code : string) (new rest : list event) :
  generator_available (Generated (inr code) :: new ++ rest) = true ->
  generator_available new = true.
Proof.
  unfold generator_available. simpl. rewrite forallb_app.
  intros H. now apply andb_prop in H as [H _].
Qed.

Lemma range_3 : range (2 + 1) = [0; 1; 2].
Proof. reflexivity. Qed.

(** With a retry budget of 2, a run in which every execution fails. *)
Lemma ask_loaded_exhausted (self : RAGPipeline) (q : string) (w w' : World)
    (r : exn + PipelineResult) (tr : list event) :
  max_retries self = 2 ->
  ask_loaded self q (w, []) = (r, (w', tr)) ->
  all_failed tr = true ->
  exists res,
    r = inr res /\ success res = false /\ nonempty_error (error res) /\
    (count_executions tr <= 3)%nat /\
    (generator_available tr = true -> count_executions tr = 3%nat).
Proof.
  intros Hmax Hask Hall. unfold ask_loaded in Hask.
  unfold try_except, attempt, external, lift, mbind, M_bind, mret, M_ret in Hask.
  destruct (generate_pandas_code q (dataframes self) w) as [[x|code] w1].
  - injection Hask as <- <- <-. eexists. split; [reflexivity|]. cbn.
    split; [reflexivity|]. split; [|split; [lia | discriminate]].
    eexists. split; [reflexivity | discriminate].
  - rewrite Hmax, range_3 in Hask.
    destruct (retry_loop_spec self q [0; 1; 2] code VNone None w1
                ([] ++ [Generated (inr code)])%list)
      as (c' & r' & e' & w2 & new & Hloop & Hcount & Hsyn & HA & HB & HC & HD).
    rewrite Hloop in Hask. cbn [length] in Hcount, HC.
    assert (Hdone : forall ev,
               is_execution ev = false ->
               all_failed (Generated (inr code) :: new ++ [ev]) = true ->
               nonempty_error e' /\
               (count_executions (Generated (inr code) :: new ++ [ev]) <= 3)%nat /\
               (generator_available (Generated (inr code) :: new ++ [ev]) = true ->
                count_executions (Generated (inr code) :: new ++ [ev]) = 3%nat)).
    { intros ev Hev Hfail.
      rewrite all_failed_skip, all_failed_app in Hfail by reflexivity.
      apply andb_prop in Hfail as [Hfail _].
      rewrite count_executions_skip, count_executions_snoc by (reflexivity || exact Hev).
      split; [now apply HB|]. split; [exact Hcount|].
      intros Hgen. apply HC; [exact Hfail|].
      eapply generator_available_init, Hgen. }
    destruct e' as [err|].
    + destruct (generate_error_response q err w2) as [[x|text] w3];
        injection Hask as <- <- <-;
        (eexists; split; [reflexivity|]; split; [reflexivity|]);
        now apply Hdone.
    + exfalso.
      assert (Hnew : all_failed new = true).
      { destruct (format_result r' 20) as [x|text].
        - injection Hask as <- <- <-. exact Hall.
        - destruct (generate_answer q text c' w2) as [[x|a] w3];
            injection Hask as <- <- <-;
            rewrite all_failed_skip, all_failed_app in Hall by reflexivity;
            now apply andb_prop in Hall as [Hall _]. }
      destruct (HB Hnew) as (e & He & _); discriminate.
Qed.

End AskFacts.

Section AskTheorems.
Context `{RT : Runtime} `{RD : Rendering} `{SV : Services}.

Lemma no_synthesis_not_in (tr : list event) (r : exn + string) :
  no_synthesis tr = true -> ~ In (Synthesized r) tr.
Proof.
  intros H Hin. unfold no_synthesis in H.
  rewrite forallb_forall in H. specialize (H _ Hin). discriminate.
Qed.

(** C8. With the retry budget at 2, a run of [ask] that reaches the
    execution stage and in which every execution attempt fails returns a
    result whose success flag is false and whose error text is not empty;
    it makes at most three execution attempts, and exactly three when the
    generator answered every request for code. *)
Theorem ask_exhausted_retries (self : RAGPipeline) (q : string) (w w' : World)
    (r : exn + PipelineResult) (tr : list event) :
  max_retries self = 2 ->
  ask self q (w, []) = (r, (w', tr)) ->
  (0 < count_executions tr)%nat ->
  all_failed tr = true ->
  exists res,
    r = inr res /\ success res = false /\ nonempty_error (error res) /\
    (count_executions tr <= 3)%nat /\
    (generator_available tr = true -> count_executions tr = 3%nat).
Proof.
  intros Hmax Hask Hran Hall. unfold ask in Hask.
  destruct (decide (dataframes self = ∅)) as [Hempty|_].
  - unfold load, mbind, M_bind in Hask.
    destruct (load_data (data_dir self) w) as [[e|dfs] w0].
    + injection Hask as <- <- <-. inversion Hran.
    + destruct (get_client w0) as [[e|[]] w1].
      * injection Hask as <- <- <-. inversion Hran.
      * refine (ask_loaded_exhausted _ q w1 w' r tr _ Hask Hall). exact Hmax.
  - exact (ask_loaded_exhausted self q w w' r tr Hmax Hask Hall).
Qed.

(** The fallback of the last stage, once the tables are loaded. *)
Lemma ask_loaded_synthesis_fallback (self : RAGPipeline) (q : string)
    (w w' : World) (r : exn + PipelineResult) (tr : list event) (x : exn) :
  ask_loaded self q (w, []) = (r, (w', tr)) ->
  In (Synthesized (inl x)) tr ->
  exists res formatted,
    r = inr res /\ success res = true /\ error res = None /\
    format_result (raw_result res) 20 = inr formatted /\
    formatted_result res = Some formatted /\
    answer res = "Here are the results:" +:+ nl +:+ nl +:+ formatted.
Proof.
  intros Hask Hin. unfold ask_loaded in Hask.
  unfold try_except, attempt, external, lift, mbind, M_bind, mret, M_ret in Hask.
  destruct (generate_pandas_code q (dataframes self) w) as [[e|code] w1].
  - injection Hask as <- <- <-. destruct Hin as [H|[]]. discriminate.
  - destruct (retry_loop_spec self q (range (max_retries self + 1)) code VNone None
                w1 ([] ++ [Generated (inr code)])%list)
      as (c' & r' & e' & w2 & new & Hloop & _ & Hsyn & _).
    rewrite Hloop in Hask.
    assert (Hnew : forall ev, In (Synthesized (inl x))
                                (Generated (inr code) :: new ++ [ev]) ->
                              ev = Synthesized (inl x)).
    { intros ev [H|H]; [discriminate|].
      apply in_app_or in H as [H|[H|[]]]; [|now symmetry].
      now apply no_synthesis_not_in in H. }
    destruct e' as [err|].
    + destruct (generate_error_response q err w2) as [[e|text] w3];
        injection Hask as <- <- <-; apply Hnew in Hin; discriminate.
    + destruct (format_result r' 20) as [e|formatted] eqn:Hformat.
      * injection Hask as <- <- <-. destruct Hin as [H|H]; [discriminate|].
        now apply no_synthesis_not_in in H.
      * destruct (generate_answer q formatted c' w2) as [[e|text] w3];
          injection Hask as <- <- <-; apply Hnew in Hin; [|discriminate].
        eexists. exists formatted. split; [reflexivity|]. cbn. auto 6.
Qed.

(** C9. When a run of [ask] reaches the answer synthesizer and the call
    fails, [ask] still returns a successful result, and its answer is the
    formatted result text after the lead-in "Here are the results:" and
    an empty line. *)
Theorem ask_synthesis_fallback (self : RAGPipeline) (q : string)
    (w w' : World) (r : exn + PipelineResult) (tr : list event) (x : exn) :
  ask self q (w, []) = (r, (w', tr)) ->
  In (Synthesized (inl x)) tr ->
  exists res formatted,
    r = inr res /\ success res = true /\ error res = None /\
    format_result (raw_result res) 20 = inr formatted /\
    formatted_result res = Some formatted /\
    answer res = "Here are the results:" +:+ nl +:+ nl +:+ formatted.
Proof.
  intros Hask Hin. unfold ask in Hask.
  destruct (decide (dataframes self = ∅)) as [Hempty|_].
  - unfold load, mbind, M_bind in Hask.
    destruct (load_data (data_dir self) w) as [[e|dfs] w0].
    + injection Hask as <- <- <-. destruct Hin.
    + destruct (get_client w0) as [[e|[]] w1].
      * injection Hask as <- <- <-. destruct Hin.
      * exact (ask_loaded_synthesis_fallback _ q w1 w' r tr x Hask Hin).
  - exact (ask_loaded_synthesis_fallback self q w w' r tr x Hask Hin).
Qed.

End AskTheorems.

(** C8, on the failing script: a rejected program, a program that raises
    in the truth test, an import that the restricted builtins refuse. *)
Lemma ask_exhausted_retries_witness :
  max_retries demo_pipeline = 2 /\
  all_failed (snd (snd (run_ask failing_script))) = true /\
  exists res,
    fst (run_ask failing_script) = inr res /\ success res = false /\
    nonempty_error (error res) /\
    (count_executions (snd (snd (run_ask failing_script))) <= 3)%nat /\
    (generator_available (snd (snd (run_ask failing_script))) = true ->
     count_executions (snd (snd (run_ask failing_script))) = 3%nat).
Proof.
  split; [reflexivity|]. split; [vm_compute; reflexivity|].
  apply (@ask_exhausted_retries MiniPy.runtime PlainText.rendering Scripted.services
           demo_pipeline "Which clients are there?" failing_script
           (fst (snd (run_ask failing_script)))
           (fst (run_ask failing_script))
           (snd (snd (run_ask failing_script)))).
  - reflexivity.
  - change (run_ask failing_script
            = (fst (run_ask failing_script),
               (fst (snd (run_ask failing_script)),
                snd (snd (run_ask failing_script))))).
    destruct (run_ask failing_script) as [r [w tr]]. reflexivity.
  - vm_compute. lia.
  - vm_compute. reflexivity.
Defined.

Example ask_exhausted_retries_run :
  count_executions (snd (snd (run_ask failing_script))) = 3%nat /\
  match fst (run_ask failing_script) with
  | inr res => error res
  | inl _ => None
  end = Some "ImportError: __import__ not found".
Proof. split; vm_compute; reflexivity. Qed.

(** A first program that fails, a second one that succeeds: two
    executions, and the result carries the second program. *)
Example ask_retry_then_success :
  match run_ask [ inr "x = clients_df"; inr "clients_df"; inr "Three clients." ] with
  | (inr res, (_, tr)) =>
      success res = true /\ generated_code res = Some "clients_df" /\
      answer res = "Three clients." /\ count_executions tr = 2%nat
  | _ => False
  end.
Proof. vm_compute. repeat split; reflexivity. Qed.

(** C9, on the fallback script: the table is shown as it was formatted. *)
Lemma ask_synthesis_fallback_witness :
  In (Synthesized (inl (Raise "APIConnectionError" "Connection error.")))
     (snd (snd (run_ask fallback_script))) /\
  exists res formatted,
    fst (run_ask fallback_script) = inr res /\ success res = true /\
    error res = None /\
    @format_result PlainText.rendering (raw_result res) 20 = inr formatted /\
    formatted_result res = Some formatted /\
    answer res = "Here are the results:" +:+ nl +:+ nl +:+ formatted.
Proof.
  assert (Hin : In (Synthesized (inl (Raise "APIConnectionError" "Connection error.")))
                   (snd (snd (run_ask fallback_script)))).
  { vm_compute. tauto. }
  split; [exact Hin|].
  apply (@ask_synthesis_fallback MiniPy.runtime PlainText.rendering Scripted.services
           demo_pipeline "Which clients are there?" fallback_script
           (fst (snd (run_ask fallback_script)))
           (fst (run_ask fallback_script))
           (snd (snd (run_ask fallback_script)))
           (Raise "APIConnectionError" "Connection error.")).
  - change (run_ask fallback_script
            = (fst (run_ask fallback_script),
               (fst (snd (run_ask fallback_script)),
                snd (snd (run_ask fallback_script))))).
    destruct (run_ask fallback_script) as [r [w tr]]. reflexivity.
  - exact Hin.
Defined.

(** ** Where the formatter returns *)

Section FormatterTotality.
Context `{RD : Rendering}.

Lemma format_float_finite (f : pyfloat) :
  is_finite f = true -> exists text, format_float f = inr text.
Proof.
  destruct f as [s|s| |s m e]; try discriminate; intros _; unfold format_float; simpl.
  - eauto.
  - match goal with |- context [if ?b then _ else _] => destruct b end; eauto.
Qed.

Lemma format_each_total (max_rows : Z) (elts : list value) :
  Forall (fun v => finite_where_formatted v = true ->
                   exists text, format_result v max_rows = inr text) elts ->
  forallb finite_where_formatted elts = true ->
  exists texts, format_each max_rows elts = inr texts.
Proof.
  induction 1 as [|v elts Hv _ IH]; simpl; intros Hall; [eauto|].
  apply andb_prop in Hall as [H1 H2].
  destruct (Hv H1) as [t ->]. destruct (IH H2) as [ts ->]. eauto.
Qed.

Lemma format_result_sequence (elts : list value) (max_rows : Z) (whole : value) :
  whole = VList elts \/ whole = VTuple elts ->
  format_result whole max_rows
  = match elts with
    | first :: _ =>
        if is_pandas first then
          match format_each max_rows elts with
          | inl e => inl e
          | inr ts => inr (join (nl +:+ nl) ts)
          end
        else inr (py_str whole)
    | [] => inr (py_str whole)
    end.
Proof. intros [-> | ->]; destruct elts; reflexivity. Qed.

(** With renderers that return, as the interface has them, the formatter
    returns text on every value that holds no NaN and no infinity where its
    float branch is reached, for every [max_rows]. *)
Lemma format_result_total_otherwise (v : value) (max_rows : Z) :
  finite_where_formatted v = true ->
  exists text, format_result v max_rows = inr text.
Proof.
  induction v as [ | b | z | f | s | elts IH | elts IH | df | sr | t n]
    using value_nested_ind; intros Hfin; try (simpl; eauto; fail).
  - now apply format_float_finite.
  - rewrite (format_result_sequence elts max_rows) by auto.
    destruct elts as [|first rest]; [eauto|].
    destruct (is_pandas first) eqn:Hp; [|eauto].
    destruct (format_each_total max_rows (first :: rest) IH) as [ts ->]; [|eauto].
    simpl in Hfin. destruct first; try discriminate; exact Hfin.
  - rewrite (format_result_sequence elts max_rows) by auto.
    destruct elts as [|first rest]; [eauto|].
    destruct (is_pandas first) eqn:Hp; [|eauto].
    destruct (format_each_total max_rows (first :: rest) IH) as [ts ->]; [|eauto].
    simpl in Hfin. destruct first; try discriminate; exact Hfin.
Qed.

End FormatterTotality.

(** ** Where the two tail paths agree, on MiniPy *)

Module MiniPyFacts.
Import MiniPy.

Lemma load_name_update (id : string) (g l : scope) :
  l !! "__builtins__" = None ->
  load_name id (dict_update g l) l = load_name id g l.
Proof.
  intros Hb. unfold load_name, dict_update.
  destruct (l !! id) eqn:Hl; [reflexivity|].
  rewrite !lookup_union_r by assumption. reflexivity.
Qed.

(** After [exec_globals.update(exec_locals)] an expression still has the
    value it had, as long as the locals do not rebind the builtins. *)
Lemma eval_expr_update (e : expr) (g l : scope) :
  l !! "__builtins__" = None ->
  eval_expr e (dict_update g l) l = eval_expr e g l.
Proof.
  intros Hb.
  assert (Hall : forall elts,
             Forall (fun e => eval_expr e (dict_update g l) l = eval_expr e g l) elts ->
             eval_all (dict_update g l) l elts = eval_all g l elts).
  { induction 1 as [|e' es He _ IH]; [reflexivity|].
    simpl. now rewrite He, IH. }
  induction e as [k|id|elts IH|elts IH|value attr IH|value slice IHv IHs]
    using expr_nested_ind.
  6: reflexivity.
  5: reflexivity.
  - reflexivity.
  - now apply load_name_update.
  - change (match eval_all (dict_update g l) l elts with
            | inl x => inl x | inr vs => inr (VTuple vs) end
            = match eval_all g l elts with
              | inl x => inl x | inr vs => inr (VTuple vs) end).
    now rewrite Hall.
  - change (match eval_all (dict_update g l) l elts with
            | inl x => inl x | inr vs => inr (VList vs) end
            = match eval_all g l elts with
              | inl x => inl x | inr vs => inr (VList vs) end).
    now rewrite Hall.
Qed.

Lemma exec_body_app (a b : list stmt) (g l : scope) :
  exec_body (a ++ b) g l
  = match exec_body a g l with
    | inl x => inl x
    | inr (g', l') => exec_body b g' l'
    end.
Proof.
  revert g l. induction a as [|s a IH]; intros g l; [reflexivity|].
  simpl. destruct (exec_stmt s g l) as [x|[g' l']]; [reflexivity | apply IH].
Qed.

(** Running statements binds names in the locals only. *)
Lemma exec_body_globals (body : list stmt) (g l g' l' : scope) :
  exec_body body g l = inr (g', l') -> g' = g.
Proof.
  revert g l. induction body as [|s body IH]; intros g l; simpl.
  - now intros [= <- _].
  - destruct (exec_stmt s g l) as [x|[g1 l1]] eqn:Hs; [discriminate|].
    intros H. apply IH in H as ->.
    destruct s as [targets value|value| |m]; simpl in Hs.
    + destruct (eval_expr value g l); [discriminate|].
      destruct (foldl _ _ targets); [discriminate|]. now injection Hs as <- _.
    + destruct (eval_expr value g l); [discriminate|]. now injection Hs as <- _.
    + now injection Hs as <- _.
    + discriminate.
Qed.

Lemma exec_assign_name (x : string) (e : expr) (g l : scope) :
  exec_body [Assign [Name x] e] g l
  = match eval_expr e g l with
    | inl err => inl err
    | inr v => inr (g, <[x := v]> l)
    end.
Proof. simpl. now destruct (eval_expr e g l). Qed.

Lemma read_back (x : string) (v : value) (g l : scope) (b : bool) :
  truth v = inr b ->
  py_or (dict_get (<[x := v]> l) x) (dict_get (dict_update g (<[x := v]> l)) x) = inr v.
Proof.
  intros Ht. unfold py_or, dict_get, dict_update.
  rewrite (lookup_union_Some_l _ _ _ v) by apply lookup_insert_eq.
  rewrite lookup_insert_eq. simpl. rewrite Ht. now destruct b.
Qed.

(** The assignment-tail program [setup; x = e] and the expression-tail
    program [setup; e] give the same outcome whenever the truth test on the
    value of [e] does not raise (and [setup] leaves the builtins alone). *)
Lemma assign_tail_agrees_when_truth_defined (code_a code_e : string)
    (dfs : gmap string DataFrame) (setup : list stmt) (x : string) (e : expr) :
  @validate_code runtime (strip_imports code_a) = (true, None) ->
  @validate_code runtime (strip_imports code_e) = (true, None) ->
  parse (strip_imports code_a) = inr (setup ++ [Assign [Name x] e])%list ->
  parse (strip_imports code_e) = inr (setup ++ [Expr e])%list ->
  (forall g l, exec_body setup (initial_globals dfs) ∅ = inr (g, l) ->
               l !! "__builtins__" = None /\
               forall v, eval_expr e g l = inr v -> exists b, truth v = inr b) ->
  fst (@execute_code runtime code_a dfs []) = fst (@execute_code runtime code_e dfs []).
Proof.
  intros Hva Hve Hpa Hpe Hok. unfold execute_code.
  rewrite Hva, Hve. cbn [negb]. fold (initial_globals dfs).
  unfold do_exec, do_eval, try_except, attempt, lift, mbind, M_bind, mret, M_ret.
  cbn [ast_parse exec eval runtime]. rewrite Hpa, Hpe, !last_snoc.
  rewrite removelast_last, exec_body_app, length_app. cbn [length].
  destruct (exec_body setup (initial_globals dfs) ∅) as [err|[g l]] eqn:Hsetup.
  - destruct setup as [|s setup]; [discriminate|].
    replace (1 <? length (s :: setup) + 1)%nat with true
      by (symmetry; apply Nat.ltb_lt; simpl; lia).
    reflexivity.
  - destruct (Hok g l eq_refl) as [Hb Htruth].
    pose proof (exec_body_globals _ _ _ _ _ Hsetup) as ->.
    rewrite exec_assign_name.
    assert (Heval : (if (1 <? length setup + 1)%nat
                     then eval_expr e (dict_update (initial_globals dfs) l) l
                     else eval_expr e (initial_globals dfs) ∅)
                    = eval_expr e (initial_globals dfs) l).
    { destruct setup as [|s setup].
      - simpl in Hsetup. now injection Hsetup as <-.
      - replace (1 <? length (s :: setup) + 1)%nat with true
          by (symmetry; apply Nat.ltb_lt; simpl; lia).
        now apply eval_expr_update. }
    destruct (eval_expr e (initial_globals dfs) l) as [err|v] eqn:He.
    + destruct (1 <? length setup + 1)%nat; cbv beta iota zeta;
        now rewrite Heval.
    + destruct (Htruth v eq_refl) as [b Hb'].
      cbv beta iota zeta. rewrite (read_back x v _ l b Hb').
      destruct (1 <? length setup + 1)%nat; cbv beta iota zeta;
        now rewrite Heval.
Qed.

End MiniPyFacts.

(** * Further properties *)

(** ** The validator: acceptance and syntax errors *)

Lemma blocked_free_find (code : string) :
  blocked_free code <->
  find (fun p => contains (lower p) (lower code)) BLOCKED_PATTERNS = None.
Proof.
  split.
  - intros Hfree.
    destruct (find _ BLOCKED_PATTERNS) as [p|] eqn:Hfind; [|reflexivity].
    apply find_some in Hfind as [Hin Hc].
    destruct (Hfree p Hin). now apply occurs_ignoring_case_iff.
  - intros Hnone p Hin Hocc. apply occurs_ignoring_case_iff in Hocc.
    pose proof (find_none _ _ Hnone p Hin) as H. simpl in H. congruence.
Qed.

Section ValidatorMore.
Context `{RT : Runtime}.

(** X1. [validate_code] accepts a text exactly when no deny-listed pattern
    stands in it, in any casing, and the text parses; the verdict then
    carries no reason. *)
Theorem validate_code_accepts_iff (code : string) :
  validate_code code = (true, None) <->
  blocked_free code /\ exists body, ast_parse code = inr body.
Proof.
  rewrite blocked_free_find. unfold validate_code. split.
  - destruct (find _ BLOCKED_PATTERNS) as [p|]; [discriminate|].
    destruct (ast_parse code) as [msg|body]; [discriminate|]. eauto.
  - intros [-> [body ->]]. reflexivity.
Qed.

(** X2. A text free of deny-listed patterns that does not parse is
    rejected, and the reason is the parser's message after the words
    "Syntax error: ". *)
Theorem validate_code_syntax_error (code msg : string) :
  blocked_free code ->
  ast_parse code = inl msg ->
  validate_code code = (false, Some ("Syntax error: " +:+ msg)).
Proof.
  intros Hfree Hparse. apply blocked_free_find in Hfree.
  unfold validate_code. now rewrite Hfree, Hparse.
Qed.

End ValidatorMore.

Lemma validate_code_syntax_error_witness :
  blocked_free "x ==" /\
  @validate_code MiniPy.runtime "x ==" = (false, Some "Syntax error: invalid syntax").
Proof.
  assert (Hfree : blocked_free "x ==") by (apply blocked_free_find; reflexivity).
  split; [exact Hfree|].
  apply (@validate_code_syntax_error MiniPy.runtime "x ==" "invalid syntax").
  - exact Hfree.
  - vm_compute. reflexivity.
Defined.

(** ** The executor, branch by branch *)

Section ExecutorMore.
Context `{RT : Runtime}.

(** X3. Code that is accepted and holds no statement (for instance only
    imports that the normalization pass removes) is answered with the
    error "Empty code", and nothing is executed. *)
Theorem execute_code_empty (code : string) (dfs : gmap string DataFrame)
    (log : list call) :
  validate_code (strip_imports code) = (true, None) ->
  ast_parse (strip_imports code) = inr [] ->
  execute_code code dfs log = (inr (VNone, Some "Empty code"), log).
Proof.
  intros Hv Hp. unfold execute_code. rewrite Hv. simpl. unfold_m.
  now rewrite Hp.
Qed.



(** X6. When the last statement assigns to a name and the run leaves that
    name bound in the locals, the result is the bound value whenever its
    truth test is defined (also when the value is falsy: 0, the empty
    string, an empty list); when the truth test raises, as it does on a
    table, the outcome is that exception's text. *)
Theorem execute_code_assignment_tail (code : string)
    (dfs : gmap string DataFrame) (log : list call) (body : list stmt)
    (x : string) (rest : list expr) (rhs : expr) (g l : scope) (v : value) :
  validate_code (strip_imports code) = (true, None) ->
  ast_parse (strip_imports code) = inr body ->
  last body = Some (Assign (Name x :: rest) rhs) ->
  exec body (initial_globals dfs) ∅ = inr (g, l) ->
  l !! x = Some v ->
  execute_code code dfs log
  = (inr (match truth v with
          | inl e => (VNone, Some (error_text e))
          | inr _ => (v, None)
          end), (log ++ [CallExec body])%list).
Proof.
  intros Hv Hp Hlast Hexec Hx.
  rewrite (execute_code_assign_name code dfs log body x rest rhs g l v)
    by assumption.
  now destruct (truth v).
Qed.


(** X8. One run of [execute_code] calls the interpreter at most twice: at
    most one [exec] and at most one [eval], and the [exec], if any, comes
    first. *)
Theorem execute_code_call_bound (code : string) (dfs : gmap string DataFrame)
    (log : list call) :
  exists calls,
    snd (execute_code code dfs log) = (log ++ calls)%list /\
    (length (List.filter is_exec calls) <= 1)%nat /\
    (length (List.filter is_eval calls) <= 1)%nat /\
    (forall b rest, calls <> CallEval b :: CallExec rest :: []).
Proof.
  unfold execute_code.
  destruct (validate_code (strip_imports code)) as [[|] reason]; simpl.
  2: { exists []. rewrite app_nil_r. repeat split; simpl; auto; discriminate. }
  unfold do_exec, do_eval. unfold_m.
  repeat step_match;
    rewrite <- ?app_assoc;
    first [ exists []; rewrite app_nil_r; repeat split; simpl; auto; discriminate
          | eexists; split; [reflexivity|]; repeat split; simpl; auto; discriminate ].
Qed.

(** X9. The error text of an outcome is never the empty string. *)
Theorem execute_code_error_text_nonempty (code : string)
    (dfs : gmap string DataFrame) (log log' : list call) (v : value)
    (err : string) :
  execute_code code dfs log = (inr (v, Some err), log') -> err <> "".
Proof. apply execute_code_error_nonempty. Qed.

End ExecutorMore.

(** X10. In the globals of a run every table stands under its name, also
    when the name is that of a pre-provided handle ([pd], [np], [datetime],
    [timedelta], [__builtins__]), which the table then hides; every other
    name has the handle, or nothing. *)
Theorem initial_globals_lookup (dfs : gmap string DataFrame) (name : string) :
  initial_globals dfs !! name
  = match dfs !! name with
    | Some df => Some (VDataFrame df)
    | None => base_globals !! name
    end.
Proof.
  unfold initial_globals, dict_update.
  destruct (dfs !! name) as [df|] eqn:Hname.
  - apply lookup_union_Some_l. now rewrite lookup_fmap, Hname.
  - apply lookup_union_r. now rewrite lookup_fmap, Hname.
Qed.

Lemma execute_code_empty_witness :
  @execute_code MiniPy.runtime "import numpy as np" sample_tables []
  = (inr (VNone, Some "Empty code"), []).
Proof.
  apply (@execute_code_empty MiniPy.runtime "import numpy as np" sample_tables []).
  - vm_compute. reflexivity.
  - vm_compute. reflexivity.
Defined.



Lemma execute_code_assignment_tail_witness :
  @execute_code MiniPy.runtime "x = 0" sample_tables []
  = (inr (VInt 0, None), [CallExec [Assign [Name "x"] (Constant (KInt 0))]]).
Proof.
  assert (exists g l,
    @exec MiniPy.runtime [Assign [Name "x"] (Constant (KInt 0))]
      (initial_globals sample_tables) ∅ = inr (g, l) /\
    l !! "x" = Some (VInt 0)) as (g & l & Hexec & Hx).
  { eexists _, _. split; [vm_compute; reflexivity | vm_compute; reflexivity]. }
  rewrite (@execute_code_assignment_tail MiniPy.runtime "x = 0" sample_tables []
             [Assign [Name "x"] (Constant (KInt 0))] "x" [] (Constant (KInt 0))
             g l (VInt 0)).
  - reflexivity.
  - vm_compute. reflexivity.
  - vm_compute. reflexivity.
  - reflexivity.
  - exact Hexec.
  - exact Hx.
Defined.


Lemma execute_code_error_text_nonempty_witness :
  "ImportError: __import__ not found" <> "".
Proof.
  apply (@execute_code_error_text_nonempty MiniPy.runtime "import json"
           sample_tables [] [CallExec [Import "json"]] VNone
           "ImportError: __import__ not found").
  vm_compute. reflexivity.
Defined.

(** ** The import-stripping pass, line by line *)

Lemma split_nonempty (s : string) (sep : ascii) : split s sep <> [].
Proof.
  destruct s as [|c s]; simpl; [discriminate|].
  destruct (Ascii.eqb c sep); [discriminate|].
  destruct (split s sep); discriminate.
Qed.

Lemma join_cons (sep p : string) (rest : list string) :
  rest <> [] -> join sep (p :: rest) = p +:+ sep +:+ join sep rest.
Proof. destruct rest; [congruence | reflexivity]. Qed.

Lemma join_push (c : ascii) (h : string) (t : list string) :
  join nl (String c h :: t) = String c (join nl (h :: t)).
Proof. destruct t; reflexivity. Qed.

(** Joining the lines of a text with newlines gives the text back. *)
Lemma join_split (s : string) : join nl (split s NL) = s.
Proof.
  induction s as [|c s IH]; [reflexivity|]. cbn [split].
  destruct (Ascii.eqb c NL) eqn:Hc.
  - apply Ascii.eqb_eq in Hc as ->.
    rewrite join_cons by apply split_nonempty. now rewrite IH.
  - destruct (split s NL) as [|h t] eqn:Hs; [now destruct (split_nonempty s NL)|].
    now rewrite join_push, IH.
Qed.

Lemma split_no_newline (l : string) :
  has_char NL l = false -> split l NL = [l].
Proof.
  induction l as [|c l IH]; [reflexivity|]. cbn [split has_char].
  intros H. apply orb_false_elim in H as [Hc Hl].
  rewrite Ascii.eqb_sym, Hc. now rewrite (IH Hl).
Qed.

Lemma split_line_then (l rest : string) :
  has_char NL l = false ->
  split (l +:+ String NL rest) NL = l :: split rest NL.
Proof.
  induction l as [|c l IH]; intros H.
  - change (split (String NL rest) NL = "" :: split rest NL).
    cbn [split]. now rewrite Ascii.eqb_refl.
  - cbn [has_char] in H. apply orb_false_elim in H as [Hc Hl].
    change (split (String c (l +:+ String NL rest)) NL = String c l :: split rest NL).
    cbn [split]. rewrite Ascii.eqb_sym, Hc. now rewrite (IH Hl).
Qed.

(** Splitting what was joined gives the lines back, when there is at least
    one line and no line holds a newline. *)
Lemma split_join (lines : list string) :
  lines <> [] ->
  Forall (fun l => has_char NL l = false) lines ->
  split (join nl lines) NL = lines.
Proof.
  induction lines as [|l lines IH]; [congruence|]. intros _ Hall.
  inversion Hall as [|? ? Hl Hrest]; subst.
  destruct lines as [|l2 lines].
  - now apply split_no_newline.
  - rewrite join_cons by discriminate.
    change (split (l +:+ String NL (join nl (l2 :: lines))) NL = l :: l2 :: lines).
    rewrite split_line_then by assumption. f_equal. now apply IH.
Qed.

Lemma split_lines_no_newline (s : string) :
  Forall (fun l => has_char NL l = false) (split s NL).
Proof.
  induction s as [|c s IH]; cbn [split]; [repeat constructor|].
  destruct (Ascii.eqb c NL) eqn:Hc.
  - constructor; [reflexivity | exact IH].
  - destruct (split s NL) as [|h t]; [repeat constructor; cbn [has_char]|].
    + now rewrite Ascii.eqb_sym, Hc.
    + inversion IH; subst. constructor; [|assumption].
      cbn [has_char]. rewrite Ascii.eqb_sym, Hc. assumption.
Qed.

Lemma filter_all (A : Type) (f : A -> bool) (l : list A) :
  forallb f l = true -> List.filter f l = l.
Proof.
  induction l as [|x l IH]; [reflexivity|]. simpl.
  intros H. apply andb_prop in H as [Hx Hl]. now rewrite Hx, (IH Hl).
Qed.

Lemma forallb_filter (A : Type) (f : A -> bool) (l : list A) :
  forallb f (List.filter f l) = true.
Proof.
  induction l as [|x l IH]; [reflexivity|]. simpl.
  destruct (f x) eqn:Hx; [simpl; now rewrite Hx|exact IH].
Qed.

Lemma kept_lines_no_newline (code : string) :
  Forall (fun l => has_char NL l = false) (List.filter kept (split code NL)).
Proof.
  apply List.Forall_forall. intros x Hx.
  apply List.filter_In in Hx as [Hx _].
  pose proof (split_lines_no_newline code) as Hall.
  rewrite List.Forall_forall in Hall. now apply Hall.
Qed.

(** X11. The lines of the text that [strip_imports] returns are the lines
    of its input that it keeps, unchanged and in their order: the lines
    whose stripped text does not both start with "import " or "from " and
    hold one of the six safe names.  When no line is kept the result is the
    empty text, one empty line. *)
Theorem strip_imports_result_lines (code : string) :
  split (strip_imports code) NL
  = match List.filter kept (split code NL) with
    | [] => [""]
    | lines => lines
    end.
Proof.
  rewrite strip_imports_lines.
  destruct (List.filter kept (split code NL)) as [|l ls] eqn:Hf; [reflexivity|].
  apply split_join; [discriminate|].
  rewrite <- Hf. apply kept_lines_no_newline.
Qed.

(** X12. Code in which no line is an import line that names a safe module
    comes out of [strip_imports] exactly as it went in. *)
Theorem strip_imports_unchanged (code : string) :
  forallb kept (split code NL) = true ->
  strip_imports code = code.
Proof.
  intros H. rewrite strip_imports_lines, (filter_all _ _ _ H). apply join_split.
Qed.

(** X13. [strip_imports] is idempotent: a second pass changes nothing. *)
Theorem strip_imports_idempotent (code : string) :
  strip_imports (strip_imports code) = strip_imports code.
Proof.
  rewrite (strip_imports_lines code).
  pose proof (kept_lines_no_newline code) as Hall.
  pose proof (forallb_filter _ kept (split code NL)) as Hkept.
  destruct (List.filter kept (split code NL)) as [|l ls]; [reflexivity|].
  rewrite strip_imports_lines, split_join by (discriminate || exact Hall).
  now rewrite (filter_all _ _ _ Hkept).
Qed.

Lemma strip_imports_unchanged_witness :
  strip_imports ("total = 5" +:+ nl +:+ "  important = total" +:+ nl +:+ "total")
  = "total = 5" +:+ nl +:+ "  important = total" +:+ nl +:+ "total".
Proof.
  apply (strip_imports_unchanged
           ("total = 5" +:+ nl +:+ "  important = total" +:+ nl +:+ "total")).
  reflexivity.
Defined.

(** X14. A line that the pass removes, put in front of the code, changes
    nothing: the code runs as it would without that line. *)
Theorem execute_code_ignores_safe_import `{RT : Runtime} (line code : string)
    (dfs : gmap string DataFrame) (log : list call) :
  has_char NL line = false ->
  kept line = false ->
  execute_code (line +:+ nl +:+ code) dfs log = execute_code code dfs log.
Proof.
  intros Hline Hkept.
  assert (Hstrip : strip_imports (line +:+ nl +:+ code) = strip_imports code).
  { rewrite !strip_imports_lines.
    change (line +:+ nl +:+ code) with (line +:+ String NL code).
    rewrite split_line_then by assumption. simpl. now rewrite Hkept. }
  unfold execute_code. now rewrite Hstrip.
Qed.

Lemma execute_code_ignores_safe_import_witness :
  @execute_code MiniPy.runtime
    ("import pandas as pd" +:+ nl +:+ "clients_df") sample_tables []
  = @execute_code MiniPy.runtime "clients_df" sample_tables [].
Proof.
  apply (@execute_code_ignores_safe_import MiniPy.runtime
           "import pandas as pd" "clients_df" sample_tables []).
  - reflexivity.
  - reflexivity.
Defined.

(** ** The formatter on scalars and on sequences of tables *)

Lemma eq_int_to_int (f : pyfloat) (z : Z) :
  PyFloat.eq_int f z = true -> PyFloat.to_int f = inr z.
Proof.
  destruct f as [s|s| |s m e]; simpl; try discriminate.
  - intros H. apply Z.eqb_eq in H. now subst.
  - destruct (Z.leb_spec 0 e) as [He|He]; intros H; apply Z.eqb_eq in H.
    + subst. destruct s; f_equal; lia.
    + assert (Hpow : 0 < 2 ^ (- e)) by (apply Z.pow_pos_nonneg; lia).
      destruct s; f_equal.
      * assert (Hm : Z.pos m = (- z) * 2 ^ (- e)) by lia.
        rewrite Hm, Z.div_mul by lia. lia.
      * rewrite <- H, Z.div_mul by lia. reflexivity.
Qed.

Lemma two_digits_spec (d : Z) :
  0 <= d < 100 -> is_two_digits (PyFloat.two_digits d) = true.
Proof.
  intros Hd.
  assert (Hall : forallb (fun n => is_two_digits (PyFloat.two_digits (Z.of_nat n)))
                         (seq 0 100) = true) by (vm_compute; reflexivity).
  rewrite forallb_forall in Hall.
  specialize (Hall (Z.to_nat d)). rewrite Z2Nat.id in Hall by lia.
  apply Hall. apply in_seq. lia.
Qed.

Section FormatterMore.
Context `{RD : Rendering}.

(** X15. A float whose value is the integer [z] is rendered as that
    integer, without decimal point, whatever [max_rows] is. *)
Theorem format_result_integral_float (f : pyfloat) (z max_rows : Z) :
  PyFloat.eq_int f z = true ->
  format_result (VFloat f) max_rows = inr (str_int z).
Proof.
  intros H. simpl. unfold format_float.
  now rewrite (eq_int_to_int f z H), H.
Qed.

(** X16. A finite float whose value is not an integer is rendered with
    exactly two digits after the decimal point. *)
Theorem format_result_two_decimals (f : pyfloat) (max_rows : Z) :
  is_finite f = true ->
  is_integral f = false ->
  exists whole frac,
    format_result (VFloat f) max_rows = inr (whole +:+ "." +:+ frac) /\
    is_two_digits frac = true.
Proof.
  intros Hfin Hint. simpl. unfold format_float. unfold is_integral in Hint.
  destruct f as [s|s| |s m e]; try discriminate; simpl in *;
    try discriminate.
  rewrite Hint.
    exists ((if s then "-" else "") +:+
            str_int ((if 0 <=? e then Z.pos m * 2 ^ e * 100
                      else PyFloat.round_half_even (Z.pos m * 100) (2 ^ (- e))) / 100)).
  eexists. split.
  - now rewrite string_app_assoc.
  - apply two_digits_spec. apply Z.mod_pos_bound. lia.
Qed.

Lemma format_each_tables (max_rows : Z) (elts : list value) :
  forallb is_pandas elts = true ->
  format_each max_rows elts = inr (map (format_table_like max_rows) elts).
Proof.
  induction elts as [|v elts IH]; [reflexivity|].
  intros H. apply andb_prop in H as [Hv Hrest].
  change (match format_result v max_rows with
          | inl e => inl e
          | inr t => match format_each max_rows elts with
                     | inl e => inl e
                     | inr ts => inr (t :: ts)
                     end
          end = inr (format_table_like max_rows v :: map (format_table_like max_rows) elts)).
  rewrite (IH Hrest). now destruct v.
Qed.

(** X17. A non-empty list or tuple of tables and labeled sequences is
    rendered as the renderings of its elements, in order, with an empty
    line between two of them; each element is truncated on its own. *)
Theorem format_result_tables (elts : list value) (max_rows : Z) :
  elts <> [] ->
  forallb is_pandas elts = true ->
  format_result (VList elts) max_rows
    = inr (join (nl +:+ nl) (map (format_table_like max_rows) elts)) /\
  format_result (VTuple elts) max_rows
    = inr (join (nl +:+ nl) (map (format_table_like max_rows) elts)).
Proof.
  intros Hne Hall.
  rewrite (format_result_sequence elts max_rows (VList elts)) by auto.
  rewrite (format_result_sequence elts max_rows (VTuple elts)) by auto.
  destruct elts as [|first rest]; [congruence|].
  assert (Hfirst : is_pandas first = true)
    by (simpl in Hall; now apply andb_prop in Hall as [H _]).
  now rewrite Hfirst, (format_each_tables max_rows (first :: rest) Hall).
Qed.

End FormatterMore.

Lemma format_result_integral_float_witness :
  @format_result PlainText.rendering (VFloat (SpecFloat.S754_finite true 7 2)) 20
  = inr "-28".
Proof.
  apply (@format_result_integral_float PlainText.rendering
           (SpecFloat.S754_finite true 7 2) (-28) 20).
  reflexivity.
Defined.

Lemma format_result_two_decimals_witness :
  exists whole frac,
    @format_result PlainText.rendering
      (VFloat (SpecFloat.S754_finite false 2001 (-1))) 20
    = inr (whole +:+ "." +:+ frac) /\
    is_two_digits frac = true.
Proof.
  apply (@format_result_two_decimals PlainText.rendering
           (SpecFloat.S754_finite false 2001 (-1)) 20).
  - reflexivity.
  - reflexivity.
Defined.

Lemma format_result_tables_witness :
  @format_result PlainText.rendering (VList [VDataFrame clients_df; VSeries totals]) 2
    = inr (join (nl +:+ nl)
             (map (@format_table_like PlainText.rendering 2)
                  [VDataFrame clients_df; VSeries totals])) /\
  @format_result PlainText.rendering (VTuple [VDataFrame clients_df; VSeries totals]) 2
    = inr (join (nl +:+ nl)
             (map (@format_table_like PlainText.rendering 2)
                  [VDataFrame clients_df; VSeries totals])).
Proof.
  apply (@format_result_tables PlainText.rendering
           [VDataFrame clients_df; VSeries totals] 2).
  - discriminate.
  - reflexivity.
Defined.


(** ** The runs of the retry loop and of [ask] *)

Section RunFacts.
Context `{RT : Runtime} `{RD : Rendering} `{SV : Services}.

(** One call to [execute_code] inside the loop. *)
Lemma run_execute_code_outcome (code : string) (dfs : gmap string DataFrame)
    (w : World) (tr : list event) :
  exists v err calls,
    execute_code code dfs [] = (inr (v, err), calls) /\
    run_execute_code code dfs (w, tr)
    = (inr (v, err), (w, (tr ++ [Executed code (v, err) calls])%list)) /\
    (err <> None -> v = VNone).
Proof.
  destruct (execute_code_returns code dfs []) as (v & err & calls & H & Hone).
  exists v, err, calls. split; [exact H|]. split.
  - unfold run_execute_code. now rewrite H.
  - intros Herr. now destruct Hone.
Qed.

(** With the parser of the interface the loop returns, and what it does
    is a [loop_run]. *)
Lemma retry_loop_runs (self : RAGPipeline) (q : string) (attempts : list Z) :
  forall (code : string) (result : value) (error : option string)
         (w : World) (tr : list event),
  exists out w' new,
    retry_loop self q attempts code result error (w, tr)
    = (inr out, (w', (tr ++ new)%list)) /\
    loop_run self attempts code result error out new.
Proof.
  induction attempts as [|a rest IH]; intros code result error w tr.
  - exists (code, result, error), w, []. rewrite app_nil_r.
    split; [reflexivity | constructor].
  - destruct (run_execute_code_outcome code (dataframes self) w tr)
      as (v & err & calls & Hexec & Hrun & Hnone).
    cbn [retry_loop]. unfold mbind, M_bind at 1. rewrite Hrun.
    destruct err as [e|].
    + rewrite (Hnone ltac:(discriminate)) in *.
      destruct (Z.ltb_spec a (max_retries self)) as [Hlt|Hge].
      * unfold attempt, external, mbind, M_bind.
        destruct (generate_code_with_error_feedback q (dataframes self) code e w)
          as [[x|code2] w1].
        -- eexists _, w1, [_; _]. rewrite <- app_assoc.
           split; [reflexivity|]. now apply loop_fix_failed.
        -- destruct (IH code2 VNone (Some e) w1
                      ((tr ++ [Executed code (VNone, Some e) calls]) ++
                       [Regenerated (inr code2)])%list)
             as (out & w' & new & Hloop & Hshape).
           exists out, w', (Executed code (VNone, Some e) calls ::
                            Regenerated (inr code2) :: new).
           rewrite Hloop, <- !app_assoc. split; [reflexivity|].
           now apply loop_regenerated.
      * destruct (IH code VNone (Some e) w (tr ++ [Executed code (VNone, Some e) calls])%list)
          as (out & w' & new & Hloop & Hshape).
        exists out, w', (Executed code (VNone, Some e) calls :: new).
        rewrite Hloop, <- !app_assoc. split; [reflexivity|].
        now apply loop_next.
    + exists (code, v, None), w, [Executed code (v, None) calls].
      split; [reflexivity|]. now apply loop_success.
Qed.

(** What [ask] does once the tables are there is an [ask_run], after the
    events that were recorded before. *)
Lemma ask_loaded_runs_from (self : RAGPipeline) (q : string) (w w' : World)
    (r : exn + PipelineResult) (tr0 tr : list event) :
  ask_loaded self q (w, tr0) = (r, (w', tr)) ->
  exists new, tr = (tr0 ++ new)%list /\ ask_run self q r new.
Proof.
  intros Hask. unfold ask_loaded in Hask.
  unfold try_except, attempt, external, lift, mbind, M_bind, mret, M_ret in Hask.
  destruct (generate_pandas_code q (dataframes self) w) as [[x|code0] w1].
  - injection Hask as <- <- <-. eexists. split; [reflexivity|]. apply ask_no_code.
  - destruct (retry_loop_runs self q (range (max_retries self + 1)) code0 VNone None
                w1 (tr0 ++ [Generated (inr code0)])%list)
      as ([[code v] error] & w2 & new & Hloop & Hshape).
    rewrite Hloop in Hask. destruct error as [err|].
    + destruct (generate_error_response q err w2) as [[x|text] w3];
        injection Hask as <- <- <-.
      * exists (Generated (inr code0) :: new ++ [Explained (inl x)])%list.
        split; [now rewrite <- !app_assoc|].
        exact (ask_gave_up self q code0 code v err new (inl x) Hshape).
      * exists (Generated (inr code0) :: new ++ [Explained (inr text)])%list.
        split; [now rewrite <- !app_assoc|].
        exact (ask_gave_up self q code0 code v err new (inr text) Hshape).
    + destruct (format_result v 20) as [x|formatted] eqn:Hformat.
      * injection Hask as <- <- <-.
        exists (Generated (inr code0) :: new). split; [now rewrite <- !app_assoc|].
        now apply (ask_format_raised self q code0 code v new x).
      * destruct (generate_answer q formatted code w2) as [[x|text] w3];
          injection Hask as <- <- <-.
        -- exists (Generated (inr code0) :: new ++ [Synthesized (inl x)])%list.
           split; [now rewrite <- !app_assoc|].
           exact (ask_answered self q code0 code v new formatted (inl x)
                    Hshape Hformat).
        -- exists (Generated (inr code0) :: new ++ [Synthesized (inr text)])%list.
           split; [now rewrite <- !app_assoc|].
           exact (ask_answered self q code0 code v new formatted (inr text)
                    Hshape Hformat).
Qed.

Lemma ask_loaded_runs (self : RAGPipeline) (q : string) (w w' : World)
    (r : exn + PipelineResult) (tr : list event) :
  ask_loaded self q (w, []) = (r, (w', tr)) -> ask_run self q r tr.
Proof.
  intros Hask. apply ask_loaded_runs_from in Hask as (new & -> & Hrun). exact Hrun.
Qed.

(** A run of [ask]: loading failed and nothing else happened, or the run
    is an [ask_run] of the pipeline with its tables. *)
Lemma ask_runs (self : RAGPipeline) (q : string) (w w' : World)
    (r : exn + PipelineResult) (tr : list event) :
  ask self q (w, []) = (r, (w', tr)) ->
  (dataframes self = ∅ /\ tr = [] /\ exists e, r = inl e) \/
  (exists loaded, max_retries loaded = max_retries self /\ ask_run loaded q r tr).
Proof.
  intros Hask. unfold ask in Hask.
  destruct (decide (dataframes self = ∅)) as [Hempty|_].
  - unfold load, mbind, M_bind in Hask.
    destruct (load_data (data_dir self) w) as [[e|dfs] w0].
    + injection Hask as <- <- <-. left. eauto 6.
    + destruct (get_client w0) as [[e|[]] w1].
      * injection Hask as <- <- <-. left. eauto 6.
      * right. eexists. split; [|exact (ask_loaded_runs _ q w1 w' r tr Hask)].
        reflexivity.
  - right. exists self. split; [reflexivity|].
    exact (ask_loaded_runs self q w w' r tr Hask).
Qed.

End RunFacts.

(** ** What every run of the loop has *)

Lemma range_nonpos (n : Z) : n <= 0 -> range n = [].
Proof. intros H. unfold range. now replace (Z.to_nat n) with 0%nat by lia. Qed.

Lemma range_length (n : Z) : length (range n) = Z.to_nat n.
Proof. unfold range. now rewrite length_map, length_seq. Qed.

Lemma range_last (n a : Z) : last (range n) = Some a -> a = n - 1.
Proof.
  unfold range. destruct (Z.to_nat n) as [|k] eqn:Hk; [discriminate|].
  rewrite seq_S, map_app. cbn [map]. rewrite last_snoc. intros [= <-]. lia.
Qed.

Lemma count_below (m : Z) (k s : nat) :
  (length (List.filter (fun a => (a <? m)%Z) (map Z.of_nat (seq s k)))
   <= Z.to_nat m - s)%nat.
Proof.
  revert s. induction k as [|k IH]; intros s; simpl; [lia|].
  specialize (IH (S s)).
  destruct (Z.ltb_spec (Z.of_nat s) m); simpl; lia.
Qed.

Lemma last_execution_snoc_other (tr : list event) (ev : event) :
  is_execution ev = false -> last_execution (tr ++ [ev]) = last_execution tr.
Proof.
  intros Hev. induction tr as [|x tr IH]; simpl.
  - now destruct ev.
  - now rewrite IH.
Qed.

Lemma last_execution_cons_other (tr : list event) (ev : event) :
  is_execution ev = false -> last_execution (ev :: tr) = last_execution tr.
Proof. intros Hev. simpl. destruct (last_execution tr); [reflexivity|]. now destruct ev. Qed.

Lemma last_execution_cons_some (tr : list event) (ev : event) found :
  last_execution tr = Some found -> last_execution (ev :: tr) = Some found.
Proof. intros H. simpl. now rewrite H. Qed.

Section LoopFacts.
Context `{RT : Runtime} `{RD : Rendering} `{SV : Services}.
Variable self : RAGPipeline.

Lemma loop_run_events attempts code result error out new :
  loop_run self attempts code result error out new ->
  forallb is_loop_event new = true.
Proof. induction 1; simpl; auto. Qed.

Lemma loop_run_counts attempts code result error out new :
  loop_run self attempts code result error out new ->
  (count_executions new <= length attempts)%nat /\
  (count_regenerations new
   <= length (List.filter (fun a => (a <? max_retries self)%Z) attempts))%nat /\
  (count_regenerations new <= count_failures new)%nat.
Proof.
  unfold count_executions, count_regenerations, count_failures.
  induction 1 as [ | | a rest code result error e calls x Hexec Hlt
                   | a rest code result error e calls code2 out new Hexec Hlt Hrun IH
                   | a rest code result error e calls out new Hexec Hge Hrun IH ];
    simpl.
  - lia.
  - lia.
  - apply Z.ltb_lt in Hlt. rewrite Hlt. simpl. lia.
  - apply Z.ltb_lt in Hlt. rewrite Hlt. simpl. lia.
  - destruct (Z.ltb_spec a (max_retries self)); simpl; lia.
Qed.

Lemma loop_run_error attempts code result error out new :
  loop_run self attempts code result error out new ->
  error = None \/ nonempty_error error ->
  snd out = None \/ nonempty_error (snd out).
Proof.
  induction 1 as [ | | a rest code result error e calls x Hexec Hlt
                   | a rest code result error e calls code2 out new Hexec Hlt Hrun IH
                   | a rest code result error e calls out new Hexec Hge Hrun IH ];
    intros Herr; simpl.
  - exact Herr.
  - now left.
  - right. eexists. split; [reflexivity | discriminate].
  - apply IH. right. exists e. split; [reflexivity|].
    eapply execute_code_error_nonempty. exact Hexec.
  - apply IH. right. exists e. split; [reflexivity|].
    eapply execute_code_error_nonempty. exact Hexec.
Qed.

Lemma loop_run_success attempts code result error out new :
  loop_run self attempts code result error out new ->
  snd out = None ->
  (attempts = [] /\ new = [] /\ out = (code, result, error)) \/
  (exists pre calls,
     new = (pre ++ [Executed (fst (fst out)) (snd (fst out), None) calls])%list /\
     all_failed pre = true).
Proof.
  induction 1 as [ | a rest code result error v calls Hexec
                   | a rest code result error e calls x Hexec Hlt
                   | a rest code result error e calls code2 out new Hexec Hlt Hrun IH
                   | a rest code result error e calls out new Hexec Hge Hrun IH ];
    intros Hnone; simpl in *.
  - left. auto.
  - right. exists [], calls. auto.
  - discriminate.
  - right. destruct (IH Hnone) as [(_ & _ & ->)|(pre & calls' & -> & Hpre)];
      [discriminate|].
    exists (Executed code (VNone, Some e) calls :: Regenerated (inr code2) :: pre), calls'.
    auto.
  - right. destruct (IH Hnone) as [(_ & _ & ->)|(pre & calls' & -> & Hpre)];
      [discriminate|].
    exists (Executed code (VNone, Some e) calls :: pre), calls'. auto.
Qed.

Lemma loop_run_last attempts code result error out new :
  loop_run self attempts code result error out new ->
  (forall a, last attempts = Some a -> max_retries self <= a) ->
  attempts <> [] ->
  exists o,
    last_execution new = Some (fst (fst out), (snd (fst out), o)) /\
    (o = None <-> snd out = None).
Proof.
  induction 1 as [ | a rest code result error v calls Hexec
                   | a rest code result error e calls x Hexec Hlt
                   | a rest code result error e calls code2 out new Hexec Hlt Hrun IH
                   | a rest code result error e calls out new Hexec Hge Hrun IH ];
    intros Hlast Hne.
  - congruence.
  - exists None. simpl. tauto.
  - exists (Some e). simpl. split; [reflexivity|]. split; discriminate.
  - destruct rest as [|b rest].
    + specialize (Hlast a eq_refl). lia.
    + destruct IH as (o & Ho & Hiff); [|discriminate|].
      * intros c Hc. apply Hlast. rewrite last_cons. now rewrite Hc.
      * exists o. split; [|exact Hiff].
        now apply last_execution_cons_some, last_execution_cons_some.
  - destruct rest as [|b rest].
    + inversion Hrun; subst. exists (Some e). simpl.
      split; [reflexivity|]. split; discriminate.
    + destruct IH as (o & Ho & Hiff); [|discriminate|].
      * intros c Hc. apply Hlast. rewrite last_cons. now rewrite Hc.
      * exists o. split; [|exact Hiff]. now apply last_execution_cons_some.
Qed.

Lemma loop_run_fix_failed attempts code result error out new x :
  loop_run self attempts code result error out new ->
  In (Regenerated (inl x)) new ->
  snd out = Some ("Code fix failed: " +:+ exn_msg x) /\
  exists pre, new = (pre ++ [Regenerated (inl x)])%list.
Proof.
  induction 1 as [ | a rest code result error v calls Hexec
                   | a rest code result error e calls x0 Hexec Hlt
                   | a rest code result error e calls code2 out new Hexec Hlt Hrun IH
                   | a rest code result error e calls out new Hexec Hge Hrun IH ];
    intros Hin.
  - destruct Hin.
  - destruct Hin as [Hin|[]]. discriminate.
  - destruct Hin as [Hin|[Hin|[]]]; [discriminate|]. injection Hin as ->.
    split; [reflexivity|]. now exists [Executed code (VNone, Some e) calls].
  - destruct Hin as [Hin|[Hin|Hin]]; [discriminate | discriminate |].
    destruct (IH Hin) as [Hout [pre ->]]. split; [exact Hout|].
    now exists (Executed code (VNone, Some e) calls :: Regenerated (inr code2) :: pre).
  - destruct Hin as [Hin|Hin]; [discriminate|].
    destruct (IH Hin) as [Hout [pre ->]]. split; [exact Hout|].
    now exists (Executed code (VNone, Some e) calls :: pre).
Qed.

(** When the last execution of the loop over [range (max_retries + 1)]
    returned without error, the loop ends there, with its code and value. *)
Lemma loop_run_last_success code0 result error out new code v :
  loop_run self (range (max_retries self + 1)) code0 result error out new ->
  last_execution new = Some (code, (v, None)) ->
  out = (code, v, None) /\
  exists pre calls, new = (pre ++ [Executed code (v, None) calls])%list.
Proof.
  intros Hloop Hlast.
  assert (Hne : range (max_retries self + 1) <> []).
  { intros Heq. rewrite Heq in Hloop. inversion Hloop; subst. discriminate. }
  assert (Hmax : forall a, last (range (max_retries self + 1)) = Some a ->
                           max_retries self <= a).
  { intros a Ha. apply range_last in Ha. lia. }
  destruct (loop_run_last _ _ _ _ _ _ Hloop Hmax Hne) as (o & Ho & Hiff).
  rewrite Hlast in Ho. destruct out as [[code1 v1] error1]. cbn [fst snd] in *.
  injection Ho as -> -> <-.
  assert (Herr : error1 = None) by now apply Hiff.
  subst error1. split; [reflexivity|].
  destruct (loop_run_success _ _ _ _ _ _ Hloop eq_refl)
    as [(Hnil & _)|(pre & calls & -> & _)]; [now destruct Hne|].
  now exists pre, calls.
Qed.

End LoopFacts.

(** ** What every run of [ask] has *)

Lemma run_eq {A B C : Type} (x : A * (B * C)) :
  x = (fst x, (fst (snd x), snd (snd x))).
Proof. now destruct x as [a [b c]]. Qed.

Lemma count_filter_app (f : event -> bool) (a b : list event) :
  length (List.filter f (a ++ b)) = (length (List.filter f a) + length (List.filter f b))%nat.
Proof. now rewrite List.filter_app, length_app. Qed.

Section AskMore.
Context `{RT : Runtime} `{RD : Rendering} `{SV : Services}.

Lemma loop_run_not_in self attempts code result error out new ev :
  loop_run self attempts code result error out new ->
  is_loop_event ev = false -> ~ In ev new.
Proof.
  intros Hrun Hev Hin. apply loop_run_events in Hrun.
  rewrite forallb_forall in Hrun. specialize (Hrun ev Hin). congruence.
Qed.

Lemma loop_run_failed_value self attempts code result error out new :
  loop_run self attempts code result error out new ->
  result = VNone -> snd out <> None -> snd (fst out) = VNone.
Proof.
  induction 1; intros Hresult Hsome; simpl in *;
    first [ assumption | reflexivity | now destruct Hsome | now apply IHloop_run ].
Qed.

(** In a trace of [ask] that starts with generated code, an event that the
    loop does not record can only be the first or the last one. *)
Lemma ask_trace_ends self attempts code0 result error out new (ev last_ev : event) :
  loop_run self attempts code0 result error out new ->
  is_loop_event ev = false ->
  In ev (Generated (inr code0) :: new ++ [last_ev]) ->
  ev = Generated (inr code0) \/ ev = last_ev.
Proof.
  intros Hrun Hev [Hin|Hin]; [now left|].
  apply in_app_or in Hin as [Hin|[Hin|[]]]; [|now right].
  now destruct (loop_run_not_in _ _ _ _ _ _ _ _ Hrun Hev Hin).
Qed.

(** X19. When the first request for code fails, [ask] makes no execution
    attempt and no further model call: it returns at once a failed result
    whose error is "Code generation failed: " and the exception's message,
    whose answer apologises with the same message, and which carries no
    code. *)
Theorem ask_generation_failure (self : RAGPipeline) (q : string) (w w' : World)
    (r : exn + PipelineResult) (tr : list event) (x : exn) :
  ask self q (w, []) = (r, (w', tr)) ->
  In (Generated (inl x)) tr ->
  tr = [Generated (inl x)] /\
  exists res,
    r = inr res /\ success res = false /\
    error res = Some ("Code generation failed: " +:+ exn_msg x) /\
    answer res = "Sorry, I couldn't generate code. Error: " +:+ exn_msg x /\
    generated_code res = None.
Proof.
  intros Hask Hin.
  destruct (ask_runs self q w w' r tr Hask)
    as [(_ & -> & _)|(loaded & _ & Hrun)]; [destruct Hin|].
  inversion Hrun as [x0|code0 code v err new r0 Hloop|code0 code v new x0 Hloop Hf
                    |code0 code v new f r0 Hloop Hf]; subst.
  - destruct Hin as [[= ->]|[]]. split; [reflexivity|]. eexists. repeat split.
  - apply (ask_trace_ends _ _ _ _ _ _ _ _ _ Hloop) in Hin as [Hin|Hin];
      [discriminate | discriminate | reflexivity].
  - destruct Hin as [Hin|Hin]; [discriminate|].
    now apply (loop_run_not_in _ _ _ _ _ _ _ _ Hloop) in Hin.
  - apply (ask_trace_ends _ _ _ _ _ _ _ _ _ Hloop) in Hin as [Hin|Hin];
      [discriminate | discriminate | reflexivity].
Qed.

(** X20. A result that [ask] returns carries the question and is of one
    of two kinds.  Success: no error, the formatted text of the raw result
    (with 20 rows at most) and the second prompt built from it.  Failure:
    an error text that is not empty, no raw result, no formatted text and
    no second prompt. *)
Theorem ask_result_consistent (self : RAGPipeline) (q : string) (w w' : World)
    (res : PipelineResult) (tr : list event) :
  ask self q (w, []) = (inr res, (w', tr)) ->
  question res = q /\
  ((success res = true /\ error res = None /\
    exists formatted,
      format_result (raw_result res) 20 = inr formatted /\
      formatted_result res = Some formatted /\
      stage2_prompt res = Some (build_answer_prompt q formatted)) \/
   (success res = false /\ nonempty_error (error res) /\
    raw_result res = VNone /\ formatted_result res = None /\
    stage2_prompt res = None)).
Proof.
  intros Hask.
  destruct (ask_runs self q w w' _ tr Hask)
    as [(_ & _ & e & He)|(loaded & _ & Hrun)]; [discriminate|].
  inversion Hrun as [x0|code0 code v err new r0 Hloop|code0 code v new x0 Hloop Hf
                    |code0 code v new f r0 Hloop Hf]; subst; simpl.
  - split; [reflexivity|]. right. repeat split.
    eexists. split; [reflexivity | discriminate].
  - split; [reflexivity|]. right. repeat split.
    destruct (loop_run_error _ _ _ _ _ _ _ Hloop (or_introl eq_refl)) as [H|H];
      [discriminate | exact H].
  - split; [reflexivity|]. left. repeat split. now exists f.
Qed.

(** X21. With a retry budget that is not negative, the code that a result
    of [ask] carries is the code of the last execution attempt, and the
    result is a success exactly when that last execution ended without
    error; on success the raw result is the value that execution gave. *)
Theorem ask_reports_last_execution (self : RAGPipeline) (q : string)
    (w w' : World) (res : PipelineResult) (tr : list event) (code : string) :
  0 <= max_retries self ->
  ask self q (w, []) = (inr res, (w', tr)) ->
  generated_code res = Some code ->
  exists o,
    last_execution tr = Some (code, (raw_result res, o)) /\
    (o = None <-> success res = true).
Proof.
  intros Hmax Hask Hcode.
  destruct (ask_runs self q w w' _ tr Hask)
    as [(_ & _ & e & He)|(loaded & Hsame & Hrun)]; [discriminate|].
  rewrite <- Hsame in Hmax.
  assert (Hne : range (max_retries loaded + 1) <> []).
  { intros H. apply (f_equal (@length Z)) in H. rewrite range_length in H.
    simpl in H. lia. }
  assert (Hlast : forall a, last (range (max_retries loaded + 1)) = Some a ->
                            max_retries loaded <= a).
  { intros a Ha. apply range_last in Ha. lia. }
  inversion Hrun as [x0|code0 code1 v err new r0 Hloop|code0 code1 v new x0 Hloop Hf
                    |code0 code1 v new f r0 Hloop Hf]; subst;
    cbn [generated_code raw_result success] in *.
  - discriminate.
  - injection Hcode as ->.
    destruct (loop_run_last _ _ _ _ _ _ _ Hloop Hlast Hne) as (o & Ho & Hiff).
    cbn [fst snd] in *.
    assert (Hv : v = VNone)
      by (apply (loop_run_failed_value _ _ _ _ _ _ _ Hloop eq_refl); discriminate).
    subst v.
    exists o. split.
    + rewrite last_execution_cons_other, last_execution_snoc_other by reflexivity.
      exact Ho.
    + split; [intros H; apply Hiff in H; discriminate | discriminate].
  - injection Hcode as ->.
    destruct (loop_run_last _ _ _ _ _ _ _ Hloop Hlast Hne) as (o & Ho & Hiff).
    cbn [fst snd] in *. exists o. split.
    + rewrite last_execution_cons_other, last_execution_snoc_other by reflexivity.
      exact Ho.
    + split; [reflexivity | intros _; now apply Hiff].
Qed.

(** X22. Whatever the collaborators answer, one run of [ask] makes at
    most [max_retries + 1] execution attempts and at most [max_retries]
    requests for corrected code (none of either when the budget is
    negative, one execution and no request when it is zero), and never more
    requests than executions that failed. *)
Theorem ask_attempt_bounds (self : RAGPipeline) (q : string) (w : World) :
  let tr := snd (snd (ask self q (w, []))) in
  (count_executions tr <= Z.to_nat (max_retries self + 1))%nat /\
  (count_regenerations tr <= Z.to_nat (max_retries self))%nat /\
  (count_regenerations tr <= count_failures tr)%nat.
Proof.
  intros tr. subst tr.
  pose proof (run_eq (ask self q (w, []))) as Hask.
  destruct (ask_runs self q w _ _ _ Hask)
    as [(_ & Hnil & _)|(loaded & Hsame & Hrun)].
  { rewrite Hnil. cbv [count_executions count_regenerations count_failures
                       List.filter length]. lia. }
  rewrite <- Hsame.
  assert (Hloop : forall code0 out new,
            loop_run loaded (range (max_retries loaded + 1)) code0 VNone None out new ->
            (count_executions new <= Z.to_nat (max_retries loaded + 1))%nat /\
            (count_regenerations new <= Z.to_nat (max_retries loaded))%nat /\
            (count_regenerations new <= count_failures new)%nat).
  { intros code0 out new H. apply loop_run_counts in H as (H1 & H2 & H3).
    rewrite range_length in H1. split; [exact H1|]. split; [|exact H3].
    etransitivity; [exact H2|]. unfold range.
    etransitivity; [apply count_below|]. lia. }
  unfold count_executions, count_regenerations, count_failures in *.
  inversion Hrun as [x0|code0 code v err new r0 Hl|code0 code v new x0 Hl Hf
                    |code0 code v new f r0 Hl Hf]; subst;
    try (apply Hloop in Hl); cbn [List.filter is_execution is_regeneration
                                   is_failed_execution];
    rewrite ?count_filter_app; simpl; lia.
Qed.

(** X23. With a negative retry budget [ask] executes nothing, and still
    reports a success: once code was generated, the result carries that
    code, never run, no raw result, and the formatted text "No result". *)
Theorem ask_negative_budget (self : RAGPipeline) (q : string) (w w' : World)
    (r : exn + PipelineResult) (tr : list event) (code : string) :
  max_retries self < 0 ->
  ask self q (w, []) = (r, (w', tr)) ->
  In (Generated (inr code)) tr ->
  count_executions tr = 0%nat /\
  exists res,
    r = inr res /\ success res = true /\ generated_code res = Some code /\
    raw_result res = VNone /\ formatted_result res = Some "No result".
Proof.
  intros Hmax Hask Hin.
  destruct (ask_runs self q w w' r tr Hask)
    as [(_ & -> & _)|(loaded & Hsame & Hrun)]; [destruct Hin|].
  rewrite <- Hsame in Hmax.
  pose proof (range_nonpos (max_retries loaded + 1) ltac:(lia)) as Hrange.
  assert (Hfirst : forall code0 (evs : list event),
            (forall ev, In ev evs -> ev <> Generated (inr code)) ->
            In (Generated (inr code)) (Generated (inr code0) :: evs) ->
            code0 = code).
  { intros code0 evs Hevs [[= ->]|H]; [reflexivity|]. now destruct (Hevs _ H). }
  inversion Hrun as [x0|code0 code1 v err new r0 Hloop|code0 code1 v new x0 Hloop Hf
                    |code0 code1 v new f r0 Hloop Hf]; subst;
    try (rewrite Hrange in Hloop; inversion Hloop; subst).
  - destruct Hin as [Hin|[]]. discriminate.
  - simpl in Hf. discriminate.
  - simpl in Hf. injection Hf as <-.
    apply Hfirst in Hin as ->; [|intros ev [<-|[]]; discriminate].
    split; [reflexivity|]. eexists. repeat split.
Qed.

(** X24. When the loop ends with an error and the model call that should
    explain it fails, [ask] still returns: a failed result whose answer is
    "Sorry, I couldn't answer your question: " followed by the error. *)
Theorem ask_explanation_fallback (self : RAGPipeline) (q : string)
    (w w' : World) (r : exn + PipelineResult) (tr : list event) (x : exn) :
  ask self q (w, []) = (r, (w', tr)) ->
  In (Explained (inl x)) tr ->
  exists res err,
    r = inr res /\ success res = false /\ error res = Some err /\
    answer res = "Sorry, I couldn't answer your question: " +:+ err.
Proof.
  intros Hask Hin.
  destruct (ask_runs self q w w' r tr Hask)
    as [(_ & -> & _)|(loaded & _ & Hrun)]; [destruct Hin|].
  inversion Hrun as [x0|code0 code v err new r0 Hloop|code0 code v new x0 Hloop Hf
                    |code0 code v new f r0 Hloop Hf]; subst.
  - destruct Hin as [Hin|[]]. discriminate.
  - apply (ask_trace_ends _ _ _ _ _ _ _ _ _ Hloop) in Hin as [Hin|Hin];
      [discriminate | | reflexivity].
    injection Hin as <-. eexists. exists err. repeat split.
  - destruct Hin as [Hin|Hin]; [discriminate|].
    now apply (loop_run_not_in _ _ _ _ _ _ _ _ Hloop) in Hin.
  - apply (ask_trace_ends _ _ _ _ _ _ _ _ _ Hloop) in Hin as [Hin|Hin];
      [discriminate | discriminate | reflexivity].
Qed.

(** X25. When a request for corrected code fails, the loop stops there:
    no execution follows, the result is a failure whose error is
    "Code fix failed: " and the exception's message, and only the request
    for an explanation comes after. *)
Theorem ask_fix_failure (self : RAGPipeline) (q : string) (w w' : World)
    (r : exn + PipelineResult) (tr : list event) (x : exn) :
  ask self q (w, []) = (r, (w', tr)) ->
  In (Regenerated (inl x)) tr ->
  (exists pre explained, tr = (pre ++ [Regenerated (inl x); Explained explained])%list) /\
  exists res,
    r = inr res /\ success res = false /\
    error res = Some ("Code fix failed: " +:+ exn_msg x).
Proof.
  intros Hask Hin.
  destruct (ask_runs self q w w' r tr Hask)
    as [(_ & -> & _)|(loaded & _ & Hrun)]; [destruct Hin|].
  assert (Hnew : forall code0 new (last_evs : list event),
            (forall ev, In ev last_evs -> ev <> Regenerated (inl x)) ->
            In (Regenerated (inl x)) (Generated (inr code0) :: new ++ last_evs) ->
            In (Regenerated (inl x)) new).
  { intros code0 new evs Hevs [H|H]; [discriminate|].
    apply in_app_or in H as [H|H]; [exact H | now destruct (Hevs _ H)]. }
  inversion Hrun as [x0|code0 code v err new r0 Hloop|code0 code v new x0 Hloop Hf
                    |code0 code v new f r0 Hloop Hf]; subst.
  - destruct Hin as [Hin|[]]. discriminate.
  - apply Hnew in Hin; [|intros ev [<-|[]]; discriminate].
    destruct (loop_run_fix_failed _ _ _ _ _ _ _ _ Hloop Hin) as [Herr [pre ->]].
    simpl in Herr. injection Herr as ->. split.
    + exists (Generated (inr code0) :: pre), r0. simpl. now rewrite <- app_assoc.
    + eexists. repeat split.
  - rewrite <- (app_nil_r new) in Hin. apply Hnew in Hin; [|intros ev []].
    destruct (loop_run_fix_failed _ _ _ _ _ _ _ _ Hloop Hin) as [Herr _].
    discriminate.
  - apply Hnew in Hin; [|intros ev [<-|[]]; discriminate].
    destruct (loop_run_fix_failed _ _ _ _ _ _ _ _ Hloop Hin) as [Herr _].
    discriminate.
Qed.

(** X26. A result that cannot be formatted makes [ask] raise.  When the
    last execution of a run returned a value and no error, and
    [format_result] raises on that value (as it does on an infinity or a
    NaN), [ask] raises that exception: it returns no result, and the run
    ends with that execution, before any model is asked for an answer. *)
Theorem ask_raises_when_formatting_raises (self : RAGPipeline) (q : string)
    (w w' : World) (r : exn + PipelineResult) (tr : list event)
    (code : string) (v : value) (e : exn) :
  ask self q (w, []) = (r, (w', tr)) ->
  last_execution tr = Some (code, (v, None)) ->
  format_result v 20 = inl e ->
  r = inl e /\
  exists pre calls, tr = (pre ++ [Executed code (v, None) calls])%list.
Proof.
  intros Hask Hlast Hformat.
  destruct (ask_runs self q w w' r tr Hask)
    as [(_ & -> & _)|(loaded & _ & Hrun)]; [discriminate|].
  inversion Hrun as [x0|code0 code1 v1 err new r0 Hloop|code0 code1 v1 new x0 Hloop Hf
                    |code0 code1 v1 new f r0 Hloop Hf]; subst.
  - discriminate.
  - rewrite last_execution_cons_other, last_execution_snoc_other in Hlast
      by reflexivity.
    destruct (loop_run_last_success _ _ _ _ _ _ _ _ Hloop Hlast) as [[=] _].
  - rewrite last_execution_cons_other in Hlast by reflexivity.
    destruct (loop_run_last_success _ _ _ _ _ _ _ _ Hloop Hlast)
      as [[= -> ->] (pre & calls & ->)].
    split; [congruence|]. now exists (Generated (inr code0) :: pre), calls.
  - rewrite last_execution_cons_other, last_execution_snoc_other in Hlast
      by reflexivity.
    destruct (loop_run_last_success _ _ _ _ _ _ _ _ Hloop Hlast) as [[= -> ->] _].
    congruence.
Qed.

End AskMore.

(** ** The run properties on scripted collaborators *)

(** Without API key [ask] raises on a pipeline that holds no tables yet:
    [load] makes the client after it has loaded the tables, and no model is
    asked. *)
Lemma ask_without_api_key :
  run_ask_without_key direct_script
  = (inl (Raise "ValueError" "GROQ_API_KEY environment variable is not set"),
     (direct_script, [])).
Proof. reflexivity. Qed.

(** Float literals of MiniPy: the nearest binary64 number, and infinity
    when the literal overflows. *)
Lemma float_literal_samples :
  MiniPy.parse "1e3"
  = inr [Expr (Constant (KFloat (SpecFloat.S754_finite false 8796093022208000 (-43))))] /\
  MiniPy.parse "1e23"
  = inr [Expr (Constant (KFloat (SpecFloat.S754_finite false 5960464477539062 24)))] /\
  MiniPy.parse "1e999" = inr [Expr (Constant (KFloat (SpecFloat.S754_infinity false)))] /\
  fst (run_mini "1e999") = inr (VFloat (SpecFloat.S754_infinity false), None).
Proof. repeat split; vm_compute; reflexivity. Qed.

(** X19, when the first model call cannot connect. *)
Lemma ask_generation_failure_witness :
  In (Generated (inl (Raise "APIConnectionError" "Connection error.")))
     (snd (snd (run_ask generator_down_script))) /\
  snd (snd (run_ask generator_down_script))
  = [Generated (inl (Raise "APIConnectionError" "Connection error."))] /\
  exists res,
    fst (run_ask generator_down_script) = inr res /\ success res = false /\
    error res = Some ("Code generation failed: "
                      +:+ exn_msg (Raise "APIConnectionError" "Connection error.")) /\
    answer res = "Sorry, I couldn't generate code. Error: "
                 +:+ exn_msg (Raise "APIConnectionError" "Connection error.") /\
    generated_code res = None.
Proof.
  assert (Hin : In (Generated (inl (Raise "APIConnectionError" "Connection error.")))
                   (snd (snd (run_ask generator_down_script)))).
  { vm_compute. tauto. }
  split; [exact Hin|].
  exact (@ask_generation_failure MiniPy.runtime PlainText.rendering Scripted.services
           demo_pipeline "Which clients are there?" generator_down_script
           _ _ _ _ (run_eq (run_ask generator_down_script)) Hin).
Defined.

(** X20, on a run whose first program succeeds. *)
Lemma ask_result_consistent_witness :
  exists res,
    fst (run_ask fallback_script) = inr res /\
    question res = "Which clients are there?" /\
    ((success res = true /\ error res = None /\
      exists formatted,
        @format_result PlainText.rendering (raw_result res) 20 = inr formatted /\
        formatted_result res = Some formatted /\
        stage2_prompt res
        = Some (@build_answer_prompt Scripted.services
                  "Which clients are there?" formatted)) \/
     (success res = false /\ nonempty_error (error res) /\
      raw_result res = VNone /\ formatted_result res = None /\
      stage2_prompt res = None)).
Proof.
  destruct (fst (run_ask fallback_script)) as [e|res] eqn:Hres.
  - vm_compute in Hres. discriminate.
  - exists res. split; [reflexivity|].
    apply (@ask_result_consistent MiniPy.runtime PlainText.rendering Scripted.services
             demo_pipeline "Which clients are there?" fallback_script
             (fst (snd (run_ask fallback_script))) res
             (snd (snd (run_ask fallback_script)))).
    rewrite <- Hres. exact (run_eq (run_ask fallback_script)).
Defined.

(** X21, on a run whose first program is rejected and whose second one
    runs: the result carries the second program. *)
Lemma ask_reports_last_execution_witness :
  0 <= max_retries demo_pipeline /\
  exists res,
    fst (run_ask repaired_script) = inr res /\
    generated_code res = Some "clients_df" /\
    exists o,
      last_execution (snd (snd (run_ask repaired_script)))
      = Some ("clients_df", (raw_result res, o)) /\
      (o = None <-> success res = true).
Proof.
  split; [vm_compute; discriminate|].
  destruct (fst (run_ask repaired_script)) as [e|res] eqn:Hres.
  - vm_compute in Hres. discriminate.
  - assert (Hcode : generated_code res = Some "clients_df").
    { vm_compute in Hres. injection Hres as <-. reflexivity. }
    exists res. split; [reflexivity|]. split; [exact Hcode|].
    apply (@ask_reports_last_execution MiniPy.runtime PlainText.rendering
             Scripted.services demo_pipeline "Which clients are there?"
             repaired_script (fst (snd (run_ask repaired_script))) res
             (snd (snd (run_ask repaired_script))) "clients_df").
    + vm_compute. discriminate.
    + rewrite <- Hres. exact (run_eq (run_ask repaired_script)).
    + exact Hcode.
Defined.

(** X23, on a pipeline built with [max_retries = -1]. *)
Lemma ask_negative_budget_witness :
  max_retries negative_budget_pipeline < 0 /\
  In (Generated (inr "clients_df"))
     (snd (snd (run_ask_with negative_budget_pipeline direct_script))) /\
  count_executions (snd (snd (run_ask_with negative_budget_pipeline direct_script)))
  = 0%nat /\
  exists res,
    fst (run_ask_with negative_budget_pipeline direct_script) = inr res /\
    success res = true /\ generated_code res = Some "clients_df" /\
    raw_result res = VNone /\ formatted_result res = Some "No result".
Proof.
  assert (Hin : In (Generated (inr "clients_df"))
                   (snd (snd (run_ask_with negative_budget_pipeline direct_script)))).
  { vm_compute. tauto. }
  split; [reflexivity|]. split; [exact Hin|].
  exact (@ask_negative_budget MiniPy.runtime PlainText.rendering Scripted.services
           negative_budget_pipeline "Which clients are there?" direct_script
           _ _ _ _ eq_refl
           (run_eq (run_ask_with negative_budget_pipeline direct_script)) Hin).
Defined.

(** X24, when no model answers after the first program. *)
Lemma ask_explanation_fallback_witness :
  In (Explained (inl (Raise "ConnectionError" "no response")))
     (snd (snd (run_ask models_down_script))) /\
  exists res err,
    fst (run_ask models_down_script) = inr res /\ success res = false /\
    error res = Some err /\
    answer res = "Sorry, I couldn't answer your question: " +:+ err.
Proof.
  assert (Hin : In (Explained (inl (Raise "ConnectionError" "no response")))
                   (snd (snd (run_ask models_down_script)))).
  { vm_compute. tauto. }
  split; [exact Hin|].
  exact (@ask_explanation_fallback MiniPy.runtime PlainText.rendering Scripted.services
           demo_pipeline "Which clients are there?" models_down_script
           _ _ _ _ (run_eq (run_ask models_down_script)) Hin).
Defined.

(** X25, when the request for corrected code cannot connect. *)
Lemma ask_fix_failure_witness :
  In (Regenerated (inl (Raise "APIConnectionError" "Connection error.")))
     (snd (snd (run_ask models_down_script))) /\
  (exists pre explained,
     snd (snd (run_ask models_down_script))
     = (pre ++ [Regenerated (inl (Raise "APIConnectionError" "Connection error."));
                Explained explained])%list) /\
  exists res,
    fst (run_ask models_down_script) = inr res /\ success res = false /\
    error res = Some ("Code fix failed: "
                      +:+ exn_msg (Raise "APIConnectionError" "Connection error.")).
Proof.
  assert (Hin : In (Regenerated (inl (Raise "APIConnectionError" "Connection error.")))
                   (snd (snd (run_ask models_down_script)))).
  { vm_compute. tauto. }
  split; [exact Hin|].
  exact (@ask_fix_failure MiniPy.runtime PlainText.rendering Scripted.services
           demo_pipeline "Which clients are there?" models_down_script
           _ _ _ _ (run_eq (run_ask models_down_script)) Hin).
Defined.

(** X26, on the program [1e999], whose value is the float infinity. *)
Lemma ask_raises_when_formatting_raises_witness :
  last_execution (snd (snd (run_ask overflow_script)))
  = Some ("1e999", (VFloat (SpecFloat.S754_infinity false), None)) /\
  @format_result PlainText.rendering (VFloat (SpecFloat.S754_infinity false)) 20
  = inl (Raise "OverflowError" "cannot convert float infinity to integer") /\
  fst (run_ask overflow_script)
  = inl (Raise "OverflowError" "cannot convert float infinity to integer") /\
  exists pre calls,
    snd (snd (run_ask overflow_script))
    = (pre ++ [Executed "1e999" (VFloat (SpecFloat.S754_infinity false), None)
                 calls])%list.
Proof.
  assert (Hlast : last_execution (snd (snd (run_ask overflow_script)))
                  = Some ("1e999", (VFloat (SpecFloat.S754_infinity false), None))).
  { vm_compute. reflexivity. }
  assert (Hformat :
            @format_result PlainText.rendering
              (VFloat (SpecFloat.S754_infinity false)) 20
            = inl (Raise "OverflowError" "cannot convert float infinity to integer")).
  { reflexivity. }
  split; [exact Hlast|]. split; [exact Hformat|].
  exact (@ask_raises_when_formatting_raises MiniPy.runtime PlainText.rendering
           Scripted.services demo_pipeline "Which clients are there?"
           overflow_script _ _ _ _ _ _
           (run_eq (run_ask overflow_script)) Hlast Hformat).
Defined.

(** ** Cleaning the model's response *)

Lemma string_app_cons (c : ascii) (a b : string) : String c a +:+ b = String c (a +:+ b).
Proof. reflexivity. Qed.

Lemma string_app_nil_l (b : string) : EmptyString +:+ b = b.
Proof. reflexivity. Qed.

Lemma string_app_nil_r (a : string) : a +:+ EmptyString = a.
Proof. induction a as [|c a IH]; [reflexivity|]. now rewrite string_app_cons, IH. Qed.

Lemma string_length_app (a b : string) :
  String.length (a +:+ b) = (String.length a + String.length b)%nat.
Proof. induction a as [|c a IH]; [reflexivity|]. rewrite string_app_cons. simpl. now rewrite IH. Qed.

Lemma startswith_app_r (p x y : string) :
  startswith p x = true -> startswith p (x +:+ y) = true.
Proof.
  intros H. apply startswith_inv in H as [rest ->].
  rewrite string_app_assoc. apply startswith_app.
Qed.

(** A text that occurs in a part of [s] occurs in [s]. *)
Lemma contains_part (sub p m q : string) :
  contains sub m = true -> contains sub (p +:+ m +:+ q) = true.
Proof.
  intros H. apply contains_inv in H as (a & b & ->).
  rewrite !string_app_assoc, <- (string_app_assoc p a).
  apply contains_app.
Qed.

Lemma free_part (sub s p m q : string) :
  contains sub s = false -> s = p +:+ m +:+ q -> contains sub m = false.
Proof.
  intros Hs ->. destruct (contains sub m) eqn:Hm; [|reflexivity].
  now rewrite (contains_part sub p m q Hm) in Hs.
Qed.

Lemma lstrip_part (s : string) : exists p, s = p +:+ lstrip s.
Proof.
  induction s as [|c s [p IH]]; [now exists ""|]. simpl.
  destruct (is_space c).
  - exists (String c p). now rewrite string_app_cons, <- IH.
  - now exists "".
Qed.

Lemma rstrip_part (s : string) : exists q, s = rstrip s +:+ q.
Proof.
  induction s as [|c s [q IH]]; [now exists ""|]. simpl.
  destruct (rstrip s) as [|d r] eqn:Hr.
  - rewrite string_app_nil_l in IH. subst q. destruct (is_space c).
    + now exists (String c s).
    + now exists s.
  - exists q. now rewrite string_app_cons, <- IH.
Qed.

Lemma strip_part (s : string) : exists p q, s = p +:+ strip s +:+ q.
Proof.
  unfold strip. destruct (lstrip_part s) as [p Hp].
  destruct (rstrip_part (lstrip s)) as [q Hq].
  exists p, q. now rewrite <- Hq.
Qed.

Lemma slice_from_part (n : nat) (s : string) : exists p, s = p +:+ slice_from n s.
Proof.
  revert s. induction n as [|n IH]; intros s; [now exists ""|].
  destruct s as [|c s]; [now exists ""|]. simpl.
  destruct (IH s) as [p Hp]. exists (String c p). now rewrite string_app_cons, <- Hp.
Qed.

Lemma slice_to_part (n : nat) (s : string) : exists q, s = slice_to n s +:+ q.
Proof.
  revert s. induction n as [|n IH]; intros s; [now exists s|].
  destruct s as [|c s]; [now exists ""|]. simpl.
  destruct (IH s) as [q Hq]. exists q. now rewrite string_app_cons, <- Hq.
Qed.

Lemma slice_from_app (a b : string) : slice_from (String.length a) (a +:+ b) = b.
Proof. induction a as [|c a IH]; [now destruct b|]. now rewrite string_app_cons. Qed.

Lemma slice_to_app (a b : string) : slice_to (String.length a) (a +:+ b) = a.
Proof.
  induction a as [|c a IH]; [now destruct b|]. rewrite string_app_cons. simpl. now rewrite IH.
Qed.

Lemma free_strip (sub s : string) :
  contains sub s = false -> contains sub (strip s) = false.
Proof.
  intros H. destruct (strip_part s) as (p & q & Hs). exact (free_part _ _ _ _ _ H Hs).
Qed.

Lemma free_slice_from (sub s : string) (n : nat) :
  contains sub s = false -> contains sub (slice_from n s) = false.
Proof.
  intros H. destruct (slice_from_part n s) as (p & Hs).
  apply (free_part sub s p _ ""); [exact H|]. now rewrite string_app_nil_r.
Qed.

Lemma free_slice_to (sub s : string) (n : nat) :
  contains sub s = false -> contains sub (slice_to n s) = false.
Proof.
  intros H. destruct (slice_to_part n s) as (q & Hs).
  apply (free_part sub s "" _ q); [exact H|]. now rewrite string_app_nil_l.
Qed.

(** *** The first occurrence *)

Lemma startswith_slice (sub s : string) :
  startswith sub s = true -> s = sub +:+ slice_from (String.length sub) s.
Proof.
  intros H. apply startswith_inv in H as [rest ->]. now rewrite slice_from_app.
Qed.

Lemma partition_split (sub s before after : string) :
  partition sub s = Some (before, after) -> s = before +:+ sub +:+ after.
Proof.
  revert before. induction s as [|c s IH]; intros before H.
  - cbn [partition] in H. destruct (startswith sub "") eqn:Hs; [|discriminate].
    injection H as <- <-. rewrite string_app_nil_l. now apply startswith_slice.
  - cbn [partition] in H. destruct (startswith sub (String c s)) eqn:Hs.
    + injection H as <- <-. rewrite string_app_nil_l. now apply startswith_slice.
    + destruct (partition sub s) as [[b a]|] eqn:Hp; [|discriminate].
      injection H as <- <-. rewrite string_app_cons. f_equal. now apply IH.
Qed.

Lemma partition_none (sub s : string) :
  partition sub s = None <-> contains sub s = false.
Proof.
  induction s as [|c s IH]; cbn [partition contains].
  - destruct (startswith sub ""); simpl; split; congruence.
  - destruct (startswith sub (String c s)); simpl; [split; congruence|].
    destruct (partition sub s) as [[b a]|].
    + split; [discriminate|]. intros H. apply IH in H. discriminate.
    + split; [intros _; now apply IH | reflexivity].
Qed.

Lemma partition_before_free (sub s before after : string) :
  sub <> "" -> partition sub s = Some (before, after) ->
  contains sub before = false.
Proof.
  intros Hsub. revert before. induction s as [|c s IH]; intros before H.
  - cbn [partition] in H. destruct (startswith sub ""); [|discriminate].
    injection H as <- <-. destruct sub; [congruence | reflexivity].
  - cbn [partition] in H. destruct (startswith sub (String c s)) eqn:Hs.
    + injection H as <- <-. destruct sub; [congruence | reflexivity].
    + destruct (partition sub s) as [[b a]|] eqn:Hp; [|discriminate].
      injection H as <- <-. cbn [contains]. rewrite (IH b eq_refl), orb_false_r.
      destruct (startswith sub (String c b)) eqn:Hb; [|reflexivity].
      apply partition_split in Hp. subst s.
      apply (startswith_app_r _ _ (sub +:+ a)) in Hb.
      rewrite string_app_cons in Hb. congruence.
Qed.

(** *** No opening tag is left *)

Lemma free_strip_think (response : string) :
  contains "<think>" (strip_think response) = false.
Proof.
  unfold strip_think.
  destruct (contains "<think>" (strip (remove_think_blocks (strip response)))) eqn:Hc;
    [|exact Hc].
  apply free_strip. unfold remove_open_think.
  destruct (partition "<think>" (strip (remove_think_blocks (strip response))))
    as [[b a]|] eqn:Hp.
  - eapply partition_before_free; [|exact Hp]. discriminate.
  - apply partition_none in Hp. congruence.
Qed.

Lemma free_strip_fences (sub code : string) :
  contains sub code = false -> contains sub (strip_fences code) = false.
Proof.
  intros H. unfold strip_fences, slice_to_last.
  repeat match goal with
         | |- context [if ?b then _ else _] => destruct b
         end;
    repeat first [ apply free_slice_to | apply free_slice_from ]; exact H.
Qed.

Lemma replace_escaped_newlines_cons (c d : ascii) (rest : string) :
  replace_escaped_newlines (String c (String d rest))
  = if Ascii.eqb c "\" && Ascii.eqb d "n"
    then String NL (replace_escaped_newlines rest)
    else String c (replace_escaped_newlines (String d rest)).
Proof. reflexivity. Qed.

(** A pattern without newline that starts the text after the replacement
    started it before. *)
Lemma startswith_replace (p s : string) :
  has_char NL p = false ->
  startswith p (replace_escaped_newlines s) = true -> startswith p s = true.
Proof.
  revert s. induction p as [|a p IH]; intros s Hp H; [reflexivity|].
  cbn [has_char] in Hp. apply orb_false_elim in Hp as [Ha Hp].
  destruct s as [|c [|d rest]]; [exact H | |].
  - cbn [replace_escaped_newlines startswith] in *.
    apply andb_prop in H as [-> H]. destruct p; [reflexivity | discriminate].
  - rewrite replace_escaped_newlines_cons in H.
    destruct (Ascii.eqb c "\" && Ascii.eqb d "n") eqn:Hcd.
    + cbn [startswith] in H. apply andb_prop in H as [H _].
      apply Ascii.eqb_eq in H. subst a. now rewrite Ascii.eqb_refl in Ha.
    + cbn [startswith] in H |- *. apply andb_prop in H as [-> H].
      now rewrite (IH _ Hp H).
Qed.

Lemma contains_replace (sub : string) :
  has_char NL sub = false -> sub <> "" ->
  forall s, (contains sub (replace_escaped_newlines s) = true -> contains sub s = true) /\
            (forall c, contains sub (replace_escaped_newlines (String c s)) = true ->
                       contains sub (String c s) = true).
Proof.
  intros Hnl Hne.
  assert (Hno : forall x, startswith sub (String NL x) = false).
  { intros x. destruct sub as [|a p]; [congruence|]. cbn [has_char] in Hnl.
    apply orb_false_elim in Hnl as [Ha _]. cbn [startswith].
    rewrite Ascii.eqb_sym in Ha. now rewrite Ha. }
  induction s as [|d rest [IH1 IH2]].
  - split; [tauto|]. intros c H. exact H.
  - split; [apply IH2|]. intros c H.
    assert (Hrep := replace_escaped_newlines_cons c d rest).
    rewrite Hrep in H.
    destruct (Ascii.eqb c "\" && Ascii.eqb d "n") eqn:Hcd.
    + cbn [contains] in H. rewrite Hno in H. simpl in H.
      do 2 apply contains_cons. now apply IH1.
    + cbn [contains] in H. apply orb_prop in H as [H|H].
      * apply contains_startswith. apply startswith_replace; [exact Hnl|].
        now rewrite Hrep.
      * apply contains_cons. now apply IH2.
Qed.

Lemma free_replace (sub s : string) :
  has_char NL sub = false -> sub <> "" ->
  contains sub s = false -> contains sub (replace_escaped_newlines s) = false.
Proof.
  intros Hnl Hne H.
  destruct (contains sub (replace_escaped_newlines s)) eqn:Hc; [|reflexivity].
  apply (contains_replace sub Hnl Hne s) in Hc. congruence.
Qed.

(** X27. Whatever the model answers, the code that either generator
    returns holds no opening think tag. *)
Theorem clean_code_has_no_think_tag (response : string) :
  contains "<think>" (clean_generated_code response) = false /\
  contains "<think>" (clean_fixed_code response) = false.
Proof.
  unfold clean_generated_code, clean_fixed_code. split.
  - apply free_strip, free_replace; [reflexivity | discriminate |].
    apply free_strip_fences, free_strip_think.
  - apply free_strip, free_strip_fences, free_strip_think.
Qed.

(** *** Whitespace at the ends *)

Lemma length_lstrip (s : string) : (String.length (lstrip s) <= String.length s)%nat.
Proof. induction s as [|c s IH]; simpl; [lia|]. destruct (is_space c); simpl; lia. Qed.

Lemma length_rstrip (s : string) : (String.length (rstrip s) <= String.length s)%nat.
Proof.
  induction s as [|c s IH]; simpl; [lia|].
  destruct (rstrip s); [destruct (is_space c)|]; simpl in *; lia.
Qed.

Lemma lstrip_first (c : ascii) (s : string) :
  lstrip (String c s) = String c s -> is_space c = false.
Proof.
  simpl. destruct (is_space c); [|reflexivity]. intros H.
  pose proof (length_lstrip s) as Hl. rewrite H in Hl. simpl in Hl. lia.
Qed.

Lemma strip_fixed (s : string) : strip s = s -> lstrip s = s /\ rstrip s = s.
Proof.
  unfold strip. intros H.
  assert (Hl : lstrip s = s).
  { destruct s as [|c s]; [reflexivity|]. simpl in *.
    destruct (is_space c); [|reflexivity].
    pose proof (length_rstrip (lstrip s)) as H1. pose proof (length_lstrip s) as H2.
    rewrite H in H1. simpl in H1. lia. }
  split; [exact Hl|]. now rewrite Hl in H.
Qed.

Lemma lstrip_app (s y : string) :
  lstrip s = s -> s <> "" -> lstrip (s +:+ y) = s +:+ y.
Proof.
  destruct s as [|c s]; [congruence|]. intros H _.
  apply lstrip_first in H. rewrite string_app_cons. simpl. now rewrite H.
Qed.

Lemma rstrip_app_keep (x y : string) :
  rstrip y <> "" -> rstrip (x +:+ y) = x +:+ rstrip y.
Proof.
  intros Hy. induction x as [|c x IH]; [reflexivity|].
  rewrite !string_app_cons. simpl. rewrite IH.
  destruct (x +:+ rstrip y) as [|d r] eqn:Hx; [|reflexivity].
  destruct x; [now rewrite string_app_nil_l in Hx | discriminate].
Qed.

Lemma rstrip_app_drop (x y : string) :
  rstrip y = "" -> rstrip (x +:+ y) = rstrip x.
Proof.
  intros Hy. induction x as [|c x IH]; [exact Hy|].
  rewrite string_app_cons. simpl. now rewrite IH.
Qed.

(** Newlines around a text that has no whitespace at its ends are what
    [strip] removes. *)
Lemma strip_padded (c : string) :
  strip c = c -> strip (String NL (c +:+ String NL "")) = c.
Proof.
  intros H. apply strip_fixed in H as [Hl Hr]. unfold strip.
  change (lstrip (String NL (c +:+ String NL ""))) with (lstrip (c +:+ String NL "")).
  destruct c as [|a c]; [reflexivity|].
  rewrite lstrip_app by (auto; discriminate).
  rewrite rstrip_app_drop by reflexivity. exact Hr.
Qed.

(** *** Fences *)

Lemma endswith_app (x p : string) : endswith p (x +:+ p) = true.
Proof.
  unfold endswith. rewrite string_length_app.
  replace (String.length x + String.length p - String.length p)%nat
    with (String.length x) by lia.
  rewrite slice_from_app, String.eqb_refl.
  apply andb_true_intro. split; [apply Nat.leb_le; lia | reflexivity].
Qed.

Lemma slice_to_last_app (x p : string) :
  slice_to_last (String.length p) (x +:+ p) = x.
Proof.
  unfold slice_to_last. rewrite string_length_app.
  replace (String.length x + String.length p - String.length p)%nat
    with (String.length x) by lia.
  apply slice_to_app.
Qed.

Lemma strip_fences_fenced (c : string) :
  strip_fences (fenced c) = String NL (c +:+ String NL "").
Proof.
  unfold strip_fences, fenced.
  change (startswith "```python" ("```python" +:+ String NL (c +:+ String NL "```")))
    with true. cbv iota.
  change (slice_from 9 ("```python" +:+ String NL (c +:+ String NL "```")))
    with (String NL (c +:+ String NL "```")).
  change (startswith "```" (String NL (c +:+ String NL "```"))) with false. cbv iota.
  assert (E : String NL (c +:+ String NL "```") = String NL (c +:+ String NL "") +:+ "```").
  { rewrite string_app_cons. f_equal. now rewrite string_app_assoc. }
  rewrite E, endswith_app. apply (slice_to_last_app _ "```").
Qed.

(** *** Occurrences near a text that shares no character with the pattern *)

Lemma startswith_apart (sub x y : string) :
  sub <> "" -> apart sub y ->
  startswith sub (x +:+ y) = true -> startswith sub x = true.
Proof.
  intros Hne Hy. revert x. induction sub as [|a p IH]; intros x H; [congruence|].
  destruct x as [|c x].
  - rewrite string_app_nil_l in H. destruct y as [|b y]; [discriminate|].
    cbn [startswith] in H. apply andb_prop in H as [H _].
    apply Ascii.eqb_eq in H. subst b.
    specialize (Hy a). cbn [has_char] in Hy. rewrite Ascii.eqb_refl in Hy.
    simpl in Hy. now specialize (Hy eq_refl).
  - rewrite string_app_cons in H. cbn [startswith] in H |- *.
    apply andb_prop in H as [-> H]. simpl.
    destruct p as [|a' p']; [reflexivity|].
    apply IH; [discriminate | | exact H].
    intros b Hb. specialize (Hy b Hb). cbn [has_char] in Hy.
    now apply orb_false_elim in Hy as [_ Hy].
Qed.

Lemma contains_apart_empty (sub y : string) :
  sub <> "" -> apart sub y -> contains sub y = false.
Proof.
  intros Hne Hy. destruct (contains sub y) eqn:H; [|reflexivity].
  destruct sub as [|a p]; [congruence|].
  assert (Ha : has_char a y = true).
  { apply (contains_has_char _ _ a H). cbn [has_char]. now rewrite Ascii.eqb_refl. }
  specialize (Hy a Ha). cbn [has_char] in Hy. now rewrite Ascii.eqb_refl in Hy.
Qed.

Lemma free_app_apart (sub x y : string) :
  sub <> "" -> apart sub y ->
  contains sub x = false -> contains sub (x +:+ y) = false.
Proof.
  intros Hne Hy. induction x as [|c x IH]; intros Hx.
  - rewrite string_app_nil_l. now apply contains_apart_empty.
  - rewrite string_app_cons. cbn [contains] in Hx |- *.
    apply orb_false_elim in Hx as [Hs Hx]. rewrite (IH Hx), orb_false_r.
    destruct (startswith sub (String c (x +:+ y))) eqn:H; [|reflexivity].
    rewrite <- string_app_cons in H. apply startswith_apart in H; auto. congruence.
Qed.

Lemma apart_check (sub y : string) :
  forallb (fun a => negb (has_char a sub)) (list_ascii_of_string y) = true ->
  apart sub y.
Proof.
  induction y as [|b y IH]; intros H a Ha; [discriminate|].
  cbn [list_ascii_of_string forallb] in H. apply andb_prop in H as [Hb H].
  cbn [has_char] in Ha. apply orb_prop in Ha as [Ha|Ha].
  - apply Ascii.eqb_eq in Ha. subst a. now apply negb_true_iff in Hb.
  - now apply IH.
Qed.

Lemma free_fenced (c : string) :
  contains "<think>" c = false -> contains "<think>" (fenced c) = false.
Proof.
  intros H. unfold fenced.
  assert (Hc : contains "<think>" (c +:+ String NL "```") = false).
  { apply free_app_apart; [discriminate | now apply apart_check | exact H]. }
  change ("```python" +:+ String NL (c +:+ String NL "```"))
    with (String "`" (String "`" (String "`" (String "p" (String "y" (String "t"
           (String "h" (String "o" (String "n" (String NL (c +:+ String NL "```"))))))))))).
  cbn [contains startswith]. rewrite Hc. reflexivity.
Qed.

(** *** The replacement of escaped newlines *)

Lemma replace_escaped_newlines_id (s : string) :
  contains "\n" s = false -> replace_escaped_newlines s = s.
Proof.
  induction s as [|c s IH]; intros H; [reflexivity|].
  destruct s as [|d rest]; [reflexivity|].
  rewrite replace_escaped_newlines_cons.
  cbn [contains] in H. apply orb_false_elim in H as [Hs H].
  cbn [startswith] in Hs. rewrite andb_true_r in Hs.
  rewrite (Ascii.eqb_sym c), (Ascii.eqb_sym d), Hs.
  f_equal. apply IH. exact H.
Qed.

Lemma replace_padded (c : string) :
  contains "\n" c = false ->
  replace_escaped_newlines (String NL (c +:+ String NL "")) = String NL (c +:+ String NL "").
Proof.
  intros H. apply replace_escaped_newlines_id.
  assert (Hc : contains "\n" (c +:+ String NL "") = false).
  { apply free_app_apart; [discriminate | now apply apart_check | exact H]. }
  cbn [contains startswith]. rewrite Hc. reflexivity.
Qed.

(** *** Think blocks *)

Lemma sub_think_blocks_free (fuel : nat) (s : string) :
  contains "<think>" s = false -> sub_think_blocks fuel s = s.
Proof.
  intros H. apply partition_none in H. destruct fuel; [reflexivity|].
  cbn [sub_think_blocks]. now rewrite H.
Qed.

Lemma rstrip_fenced (c : string) : rstrip (fenced c) = fenced c.
Proof.
  assert (E : fenced c = ("```python" +:+ String NL (c +:+ String NL "")) +:+ "```").
  { unfold fenced. rewrite string_app_assoc. f_equal.
    rewrite string_app_cons. f_equal. now rewrite string_app_assoc. }
  rewrite E. now rewrite rstrip_app_keep by discriminate.
Qed.

Lemma strip_fenced (c : string) : strip (fenced c) = fenced c.
Proof. unfold strip. change (lstrip (fenced c)) with (fenced c). apply rstrip_fenced. Qed.

Lemma strip_think_fenced (c : string) :
  contains "<think>" c = false -> strip_think (fenced c) = fenced c.
Proof.
  intros H. apply free_fenced in H. unfold strip_think, remove_think_blocks.
  rewrite strip_fenced, (sub_think_blocks_free _ _ H), strip_fenced. now rewrite H.
Qed.

Lemma partition_startswith (sub s : string) :
  startswith sub s = true ->
  partition sub s = Some (EmptyString, slice_from (String.length sub) s).
Proof. intros H. destruct s; cbn [partition]; now rewrite H. Qed.

(** The rounds of [sub_think_blocks] that the length of the text allows
    are all the rounds there are. *)
Lemma sub_think_blocks_fuel (n : nat) :
  forall (s : string) (m : nat),
  (String.length s <= n)%nat -> (String.length s <= m)%nat ->
  sub_think_blocks n s = sub_think_blocks m s.
Proof.
  induction n as [|n IH]; intros s m Hn Hm.
  - destruct s; [|simpl in Hn; lia]. now destruct m.
  - destruct m as [|m].
    + destruct s; [reflexivity | simpl in Hm; lia].
    + cbn [sub_think_blocks].
      destruct (partition "<think>" s) as [[before inside]|] eqn:Ho; [|reflexivity].
      destruct (partition "</think>" inside) as [[block rest]|] eqn:Hc; [|reflexivity].
      apply partition_split in Ho, Hc. subst s inside.
      rewrite !string_length_app in Hn, Hm. simpl in Hn, Hm.
      f_equal. apply IH; lia.
Qed.

Lemma remove_think_blocks_unfold (s : string) :
  remove_think_blocks s
  = match partition "<think>" s with
    | None => s
    | Some (before, inside) =>
        match partition "</think>" inside with
        | None => s
        | Some (_, rest) => before +:+ remove_think_blocks rest
        end
    end.
Proof.
  unfold remove_think_blocks. destruct (String.length s) as [|n] eqn:Hlen.
  - destruct s; [reflexivity | discriminate].
  - cbn [sub_think_blocks].
    destruct (partition "<think>" s) as [[before inside]|] eqn:Ho; [|reflexivity].
    destruct (partition "</think>" inside) as [[block rest]|] eqn:Hc; [|reflexivity].
    apply partition_split in Ho, Hc. subst s inside.
    rewrite !string_length_app in Hlen. simpl in Hlen.
    f_equal. apply sub_think_blocks_fuel; lia.
Qed.

(** A closing tag that starts inside [x] ends inside [x]: the tag does not
    overlap itself. *)
Lemma startswith_close_straddle (x rest : string) :
  x <> "" -> startswith "</think>" (x +:+ "</think>" +:+ rest) = true ->
  startswith "</think>" x = true.
Proof.
  intros Hne H. destruct x as [|c x]; [congruence|]. clear Hne.
  rewrite string_app_cons in H. cbn [startswith] in H |- *.
  apply andb_prop in H as [-> H]. cbn [andb].
  do 7 (destruct x as [|? x];
        [ rewrite string_app_nil_l in H; vm_compute in H; discriminate H
        | rewrite string_app_cons in H; cbn [startswith] in H |- *;
          apply andb_prop in H as [-> H]; cbn [andb] ]).
  reflexivity.
Qed.

Lemma partition_close (r rest : string) :
  contains "</think>" r = false ->
  partition "</think>" (r +:+ "</think>" +:+ rest) = Some (r, rest).
Proof.
  induction r as [|c r IH]; intros H.
  - rewrite string_app_nil_l, partition_startswith by apply startswith_app.
    now rewrite (slice_from_app "</think>" rest).
  - cbn [contains] in H. apply orb_false_elim in H as [Hs H].
    rewrite string_app_cons. cbn [partition].
    destruct (startswith "</think>" (String c (r +:+ "</think>" +:+ rest))) eqn:E.
    + rewrite <- string_app_cons in E. apply startswith_close_straddle in E; [|discriminate].
      congruence.
    + now rewrite (IH H).
Qed.

Lemma strip_reasoned (r c : string) : strip (reasoned r c) = reasoned r c.
Proof.
  unfold strip. change (lstrip (reasoned r c)) with (reasoned r c).
  assert (E : reasoned r c
              = ("<think>" +:+ r +:+ "</think>" +:+ String NL "") +:+ fenced c).
  { unfold reasoned. now rewrite !string_app_assoc. }
  rewrite E, rstrip_app_keep; rewrite rstrip_fenced; [reflexivity | discriminate].
Qed.

Lemma strip_think_reasoned (r c : string) :
  contains "</think>" r = false -> contains "<think>" c = false ->
  strip_think (reasoned r c) = fenced c.
Proof.
  intros Hr Hc. apply free_fenced in Hc.
  assert (Hnl : contains "<think>" (String NL (fenced c)) = false).
  { cbn [contains startswith]. now rewrite Hc. }
  assert (Hb : remove_think_blocks (reasoned r c) = String NL (fenced c)).
  { rewrite remove_think_blocks_unfold. unfold reasoned.
    rewrite partition_startswith by apply startswith_app.
    rewrite (slice_from_app "<think>"), (partition_close r _ Hr), string_app_nil_l.
    unfold remove_think_blocks. apply (sub_think_blocks_free _ _ Hnl). }
  assert (Hs : strip (String NL (fenced c)) = fenced c).
  { unfold strip. change (lstrip (String NL (fenced c))) with (fenced c).
    apply rstrip_fenced. }
  unfold strip_think. rewrite strip_reasoned, Hb, Hs. now rewrite Hc.
Qed.

Lemma clean_fenced (response c : string) :
  strip_think response = fenced c -> strip c = c ->
  clean_fixed_code response = c /\
  (contains "\n" c = false -> clean_generated_code response = c).
Proof.
  intros Ht Hc. unfold clean_fixed_code, clean_generated_code.
  rewrite Ht, strip_fences_fenced. split.
  - now apply strip_padded.
  - intros Hn. rewrite (replace_padded c Hn). now apply strip_padded.
Qed.

(** X28. A response that is code in a python fence gives back the code:
    for every code without whitespace at its ends and without opening think
    tag.  The first generator also needs the code to hold no backslash
    followed by the letter n, which it would turn into a newline. *)
Theorem clean_code_fenced (c : string) :
  strip c = c -> contains "<think>" c = false ->
  clean_fixed_code (fenced c) = c /\
  (contains "\n" c = false -> clean_generated_code (fenced c) = c).
Proof.
  intros Hs Hc. apply clean_fenced; [now apply strip_think_fenced | exact Hs].
Qed.

(** X29. The reasoning of a reasoning model is dropped: a response made
    of a think block whose text holds no closing tag, a newline and fenced
    code gives back the code, under the conditions of the fenced case. *)
Theorem clean_code_reasoned (r c : string) :
  contains "</think>" r = false ->
  strip c = c -> contains "<think>" c = false ->
  clean_fixed_code (reasoned r c) = c /\
  (contains "\n" c = false -> clean_generated_code (reasoned r c) = c).
Proof.
  intros Hr Hs Hc. apply clean_fenced; [now apply strip_think_reasoned | exact Hs].
Qed.

(** X28, on a one-line program. *)
Lemma clean_code_fenced_witness :
  clean_fixed_code (fenced "result = len(clients_df)") = "result = len(clients_df)" /\
  clean_generated_code (fenced "result = len(clients_df)") = "result = len(clients_df)".
Proof.
  destruct (clean_code_fenced "result = len(clients_df)" eq_refl eq_refl) as [Hf Hg].
  split; [exact Hf | exact (Hg eq_refl)].
Defined.

(** X29, on a response with two lines of reasoning. *)
Lemma clean_code_reasoned_witness :
  clean_fixed_code
    (reasoned ("The user wants a count." +:+ nl +:+ "Use len.") "len(clients_df)")
  = "len(clients_df)" /\
  clean_generated_code
    (reasoned ("The user wants a count." +:+ nl +:+ "Use len.") "len(clients_df)")
  = "len(clients_df)".
Proof.
  destruct (clean_code_reasoned
              ("The user wants a count." +:+ nl +:+ "Use len.") "len(clients_df)"
              eq_refl eq_refl eq_refl) as [Hf Hg].
  split; [exact Hf | exact (Hg eq_refl)].
Defined.

(** ** Batches of questions *)

Section BatchFacts.
Context `{RT : Runtime} `{RD : Rendering} `{SV : Services}.

(** [ask] is [ask_in] without the pipeline it leaves. *)
Lemma ask_in_result (self : RAGPipeline) (q : string) (s : World * list event) :
  ask self q s
  = match ask_in self q s with
    | (inr (_, res), s') => (inr res, s')
    | (inl e, s') => (inl e, s')
    end.
Proof.
  unfold ask, ask_in, mbind, M_bind, mret, M_ret.
  destruct (if decide (dataframes self = ∅) then load self else _) as [[e|loaded] s1];
    [reflexivity|].
  now destruct (ask_loaded loaded q s1) as [[e|res] s2].
Qed.







End BatchFacts.

